(** * DistributedMandelbrot: the worker and viewer clients, and the
      coordinator contract they speak to.

    A shallow embedding of
    - [DistributedMandelbrotWorkerCUDA.py] (module [Worker]),
    - [DistributedMandelbrotViewer.py] (module [Viewer]),
    with Python exceptions as an error type ([Py]), [np.float64] as Rocq's
    primitive binary64 floats, sockets as explicit state ([Sock]), and the
    coordinator, which is not part of the sources, as a state machine
    written from the specification ([Coordinator]). *)

From Stdlib Require Import ZArith NArith List Lia Bool.
From Stdlib.Strings Require Import Byte.
From Stdlib Require Import Floats.
From stdpp Require Import base option list gmap.

(** ** Python results and exceptions *)

Module Py.

(** The exceptions the two programs can raise: the builtin ones that the
    interpreter, [struct] and NumPy raise, and one constructor per
    [raise Exception(...)] site of the sources. *)
Inductive exn : Type :=
| ZeroDivisionError
| ValueError
| IndexError
| StructError
| EOFReached                         (* "EOF reached when trying to read socket message" *)
| UnknownSerializationType           (* "Unknown serialization type code" *)
| RequestRejected                    (* "Request was rejected" *)
| UnknownRequestStatus (status : Z)  (* "Unknown request status code: " + str(status) *)
| IncorrectDataLength                (* "Incorrect data length" *)
| UnknownResponseCode (response : Z) (* "Unknown response code to request: " + str(response) *).

Inductive result (A : Type) : Type :=
| Return (a : A)
| Raise (e : exn).

Arguments Return {A} a.
Arguments Raise {A} e.

Definition is_raise {A} (r : result A) : bool :=
  match r with Raise _ => true | Return _ => false end.

Definition rbind {A B} (r : result A) (k : A -> result B) : result B :=
  match r with
  | Return a => k a
  | Raise e => Raise e
  end.

End Py.

Export Py.

Notation "'try!' x ':=' r 'in' k" := (Py.rbind r (fun x => k))
  (at level 10, x pattern, r at level 99, k at level 200).

(** ** Machine numbers: bytes, [struct] packing, float64 conversions *)

Module Num.

Local Open Scope Z_scope.

Definition Z_of_byte (b : byte) : Z := Z.of_N (Byte.to_N b).

Definition byte_of_Z (z : Z) : byte :=
  match Byte.of_N (Z.to_N (z mod 256)) with
  | Some b => b
  | None => x00
  end.

(** Native byte order of the machines the programs run on: little endian. *)
Definition uint_of_bytes (bs : list byte) : Z :=
  foldr (fun b acc => Z_of_byte b + 256 * acc) 0 bs.

Definition bytes_of_uint32 (v : Z) : list byte :=
  [byte_of_Z v; byte_of_Z (v / 256); byte_of_Z (v / 65536); byte_of_Z (v / 16777216)].

Definition is_uint32 (v : Z) : bool := (0 <=? v) && (v <? 4294967296).

(** [struct.unpack("B", x)[0]] *)
Definition unpack_B (x : list byte) : result Z :=
  match x with
  | [b] => Return (Z_of_byte b)
  | _ => Raise StructError
  end.

(** [struct.unpack("I", x)[0]] *)
Definition unpack_I (x : list byte) : result Z :=
  if (Z.of_nat (length x) =? 4) then Return (uint_of_bytes x) else Raise StructError.

(** [struct.unpack("IB", x)]: a 4-byte count, then a 1-byte value. *)
Definition unpack_IB (x : list byte) : result (Z * byte) :=
  match x with
  | [b0; b1; b2; b3; v] => Return (uint_of_bytes [b0; b1; b2; b3], v)
  | _ => Raise StructError
  end.

(** [struct.pack("B", v)] *)
Definition pack_B (v : Z) : result (list byte) :=
  if (0 <=? v) && (v <? 256) then Return [byte_of_Z v] else Raise StructError.

(** [struct.pack("III", a, b, c)] *)
Definition pack_III (a b c : Z) : result (list byte) :=
  if is_uint32 a && is_uint32 b && is_uint32 c
  then Return (bytes_of_uint32 a ++ bytes_of_uint32 b ++ bytes_of_uint32 c)
  else Raise StructError.

(** The layout of one RLE run, the inverse of [unpack_IB]. *)
Definition pack_IB (count : Z) (val : byte) : list byte :=
  bytes_of_uint32 count ++ [val].

(** Conversion of an integer to float64: exact below 2^53 in magnitude,
    which covers [int32] counts and the [uint32] fields of an address. *)
Definition float_of_Z (n : Z) : float :=
  if n <? 0 then (- PrimFloat.of_uint63 (Uint63.of_Z (- n)))%float
  else PrimFloat.of_uint63 (Uint63.of_Z n).

(** The integral part of a float64 (rounding toward zero), when there is one. *)
Definition float64_trunc (f : float) : option Z :=
  match Prim2SF f with
  | S754_zero _ => Some 0
  | S754_finite s m e =>
      let mag := Z.shiftl (Z.pos m) e in
      Some (if s then - mag else mag)
  | S754_infinity _ => None
  | S754_nan => None
  end.

(** [x.astype(np.uint8)] of one float64: the integral part.  C leaves the cast
    undefined when the integral part is not in 0..255 or does not exist; the
    model then wraps modulo 256, resp. gives 0. *)
Definition astype_uint8 (f : float) : Z :=
  match float64_trunc f with
  | Some q => q mod 256
  | None => 0
  end.

End Num.

Export Num.

(** ** Sockets *)

Module Sock.

(** A connected socket: the segments the peer's bytes arrive in (one [recv]
    never returns bytes of two segments), what was sent so far, and whether
    [close] was called. *)
Record socket : Type := mkSocket {
  incoming : list (list byte);
  sent : list byte;
  closed : bool
}.

(** [recv] on the arriving segments: at most [n] bytes of the first segment
    that has any; no bytes at all only at end of stream. *)
Fixpoint recv_segments (n : nat) (segs : list (list byte)) : list byte * list (list byte) :=
  match segs with
  | [] => ([], [])
  | [] :: rest => recv_segments n rest
  | seg :: rest =>
      (take n seg, match drop n seg with [] => rest | seg' => seg' :: rest end)
  end.

(** Socket operations are state transformers that may raise. *)
Definition io (A : Type) : Type := socket -> result A * socket.

Definition ret {A} (a : A) : io A := fun s => (Return a, s).

Definition raise {A} (e : exn) : io A := fun s => (Raise e, s).

Definition lift {A} (r : result A) : io A := fun s => (r, s).

Definition bind {A B} (m : io A) (k : A -> io B) : io B :=
  fun s =>
    match m s with
    | (Return a, s') => k a s'
    | (Raise e, s') => (Raise e, s')
    end.

(** [s.recv(n)] *)
Definition recv (n : nat) : io (list byte) :=
  fun s =>
    let (x, segs) := recv_segments n (incoming s) in
    (Return x, mkSocket segs (sent s) (closed s)).

(** [s.send(data)] *)
Definition send (data : list byte) : io unit :=
  fun s => (Return tt, mkSocket (incoming s) (sent s ++ data) (closed s)).

(** [s.close()] *)
Definition close : io unit :=
  fun s => (Return tt, mkSocket (incoming s) (sent s) true).

(** A fresh connection on which the peer's bytes arrive as [segs]. *)
Definition connected (segs : list (list byte)) : socket := mkSocket segs [] false.

(** The bytes a socket will still deliver. *)
Definition pending (s : socket) : list byte := mjoin (incoming s).

End Sock.

Notation "'let!' x ':=' m 'in' k" := (Sock.bind m (fun x => k))
  (at level 10, x pattern, m at level 99, k at level 200).

(** ** The worker: [DistributedMandelbrotWorkerCUDA.py] *)

Module Worker.

Local Open Scope Z_scope.

Definition MIN_AXIS : Z := -2.
Definition MAX_AXIS : Z := 2.

Definition REQUEST_CODE : Z := 0x00.
Definition RESPONSE_CODE : Z := 0x01.

Definition WORKLOAD_AVAILABLE_CODE : Z := 0x10.
Definition WORKLOAD_NOT_AVAILABLE_CODE : Z := 0x11.

Definition WORKLOAD_ACCEPT_CODE : Z := 0x20.
Definition WORKLOAD_REJECT_CODE : Z := 0x21.

(** [np.linspace(start, stop, num)] as NumPy computes it: [num] samples
    [k * step + start] with [step = (stop - start) / (num - 1)], the last one
    overwritten by [stop]; a negative [num] is a [ValueError]. *)
Definition np_linspace (start stop : float) (num : Z) : result (list float) :=
  if num <? 0 then Raise ValueError else
  let div := num - 1 in
  let delta := (stop - start)%float in
  let y := map (fun k => float_of_Z (Z.of_nat k)) (seq 0 (Z.to_nat num)) in
  let y :=
    if 0 <? div then
      let step := (delta / float_of_Z div)%float in
      if PrimFloat.eqb step 0
      then map (fun v => (v / float_of_Z div * delta)%float) y
      else map (fun v => (v * step)%float) y
    else map (fun v => (v * delta)%float) y in
  let y := map (fun v => (v + start)%float) y in
  Return (if 1 <? num then <[Z.to_nat (num - 1) := stop]> y else y).

(** [np.tile(a, reps)]: the whole array, [reps] times over. *)
Definition np_tile {A} (a : list A) (reps : Z) : list A :=
  mjoin (replicate (Z.to_nat reps) a).

(** [np.repeat(a, repeats)]: every element [repeats] times, in order. *)
Definition np_repeat {A} (a : list A) (repeats : Z) : list A :=
  a ≫= replicate (Z.to_nat repeats).

Definition gen_arrays (start_r start_i _range : float) (definition : Z)
  : result (list float * list float) :=
  try! r := np_linspace start_r (start_r + _range)%float definition in
  try! i := np_linspace start_i (start_i + _range)%float definition in
  let r_rep := np_tile r definition in
  let i_rep := np_repeat i definition in
  Return (r_rep, i_rep).

(** One pass of the body of the [for] loop of [calc_mb_value]: square, add
    [c]; every operation is rounded to float64 on its own. *)
Definition mb_step (c z : float * float) : float * float :=
  let z := (z.1 * z.1 - z.2 * z.2, 2 * z.1 * z.2)%float in
  (z.1 + c.1, z.2 + c.2)%float.

Definition sqr_mag (z : float * float) : float := (z.1 * z.1 + z.2 * z.2)%float.

(** [if (sqr_mag >= 4)] *)
Definition escaped (z : float * float) : bool := PrimFloat.leb 4 (sqr_mag z).

(** [for i in range(1, mrd)], with [todo] passes left to run from index [i]. *)
Fixpoint calc_mb_loop (c : float * float) (todo : nat) (i : Z) (z : float * float) : Z :=
  match todo with
  | O => 0
  | S todo' =>
      let z := mb_step c z in
      if escaped z then i else calc_mb_loop c todo' (i + 1) z
  end.

Definition calc_mb_value (r i : float) (mrd : Z) : Z :=
  let c := (r, i) in
  let z := (r, i) in
  calc_mb_loop c (Z.to_nat (mrd - 1)) 1 z.

(** The [@vectorize]d kernel: [calc_mb_value] on every pair of the two arrays. *)
Definition calc_mb_value_vec (r i : list float) (mrd : Z) : list Z :=
  zip_with (fun x y => calc_mb_value x y mrd) r i.

(** Lines 74-77 of [process_workload]: the plane window of a tile address. *)
Definition chunk_window (level index_real index_imag : Z) : result (float * float * float) :=
  if level =? 0 then Raise ZeroDivisionError else
  let chunk_range := (float_of_Z (MAX_AXIS - MIN_AXIS) / float_of_Z level)%float in
  let start_r := (float_of_Z MIN_AXIS + chunk_range * float_of_Z index_real)%float in
  let start_i := (float_of_Z MIN_AXIS + chunk_range * float_of_Z index_imag)%float in
  Return (start_r, start_i, chunk_range).

(** Lines 96-98 of [process_workload], on one iteration count. *)
Definition normalize (mrd : Z) (count : Z) : Z :=
  astype_uint8 (float_of_Z count * 256 / float_of_Z mrd)%float.

Definition process_workload (level index_real index_imag : Z) : result (list Z) :=
  try! (start_r, start_i, chunk_range) := chunk_window level index_real index_imag in
  let mrd := 1024 in
  let definition := 4096 in
  try! (r, i) := gen_arrays start_r start_i chunk_range definition in
  let out := calc_mb_value_vec r i mrd in
  let out := map (normalize mrd) out in
  Return out.

(** [out.tobytes()] of the [uint8] array. *)
Definition tobytes (out : list Z) : list byte := map byte_of_Z out.

Definition receive_workload : Sock.io (Z * Z * Z) :=
  let! x := Sock.recv 4 in
  let! level := Sock.lift (unpack_I x) in
  let! x := Sock.recv 4 in
  let! indexReal := Sock.lift (unpack_I x) in
  let! x := Sock.recv 4 in
  let! indexImag := Sock.lift (unpack_I x) in
  Sock.ret (level, indexReal, indexImag).

(** [sock.recv(1)[0]] *)
Definition recv_first_byte : Sock.io Z :=
  let! x := Sock.recv 1 in
  match x with
  | [] => Sock.raise IndexError
  | b :: _ => Sock.ret (Z_of_byte b)
  end.

(** Lines 114-133 of [do_workload_single], on the first connection:
    [None] is the early [return False]. *)
Definition receive_workload_session : Sock.io (option (Z * Z * Z)) :=
  let! req := Sock.lift (pack_B REQUEST_CODE) in
  let! _ := Sock.send req in
  let! response := recv_first_byte in
  if response =? WORKLOAD_AVAILABLE_CODE then
    let! workload := receive_workload in
    let! _ := Sock.close in
    Sock.ret (Some workload)
  else if response =? WORKLOAD_NOT_AVAILABLE_CODE then
    Sock.ret None
  else
    Sock.raise (UnknownResponseCode response).

(** Lines 147-175 of [do_workload_single], on the second connection. *)
Definition return_workload_session (workload : Z * Z * Z) (out : list Z) : Sock.io bool :=
  let! tag := Sock.lift (pack_B RESPONSE_CODE) in
  let! _ := Sock.send tag in
  let! addr := Sock.lift (pack_III workload.1.1 workload.1.2 workload.2) in
  let! _ := Sock.send addr in
  let! response := recv_first_byte in
  if response =? WORKLOAD_ACCEPT_CODE then
    let! _ := Sock.send (tobytes out) in
    let! _ := Sock.close in
    Sock.ret true
  else if response =? WORKLOAD_REJECT_CODE then
    Sock.ret true
  else
    Sock.raise (UnknownResponseCode response).

(** [do_workload_single(addr, port)]: [pull] and [push] are the two
    connections it opens to the server, in this order. *)
Definition do_workload_single (pull push : Sock.socket)
  : result bool * (Sock.socket * Sock.socket) :=
  match receive_workload_session pull with
  | (Raise e, pull') => (Raise e, (pull', push))
  | (Return None, pull') => (Return false, (pull', push))
  | (Return (Some workload), pull') =>
      match process_workload workload.1.1 workload.1.2 workload.2 with
      | Raise e => (Raise e, (pull', push))
      | Return out =>
          let (res, push') := return_workload_session workload out push in
          (res, (pull', push'))
      end
  end.

End Worker.

(** ** The viewer: [DistributedMandelbrotViewer.py] *)

Module Viewer.

Local Open Scope Z_scope.

Definition CHUNK_WIDTH : Z := 4096.

Definition MIN_AXIS : Z := -2.
Definition MAX_AXIS : Z := 2.

Definition REQUEST_ACCEPT_CODE : Z := 0x00.
Definition REQUEST_REJECT_CODE : Z := 0x01.
Definition REQUEST_NOT_AVAILABLE_CODE : Z := 0x02.

(** [while len(out) < n], with [todo] passes allowed. Every pass that does
    not raise adds a byte, so [n] passes are enough: [None] (out of passes)
    is never the result of [recv_sock_msg_by_len]. *)
Fixpoint recv_loop (todo : nat) (n : Z) (out : list byte) (s : Sock.socket)
  : option (result (list byte) * Sock.socket) :=
  if Z.of_nat (length out) <? n then
    match todo with
    | O => None
    | S todo' =>
        match Sock.recv (Z.to_nat (n - Z.of_nat (length out))) s with
        | (Return [], s') => Some (Raise EOFReached, s')
        | (Return x, s') => recv_loop todo' n (out ++ x) s'
        | (Raise e, s') => Some (Raise e, s')
        end
    end
  else Some (Return out, s).

Definition recv_sock_msg_by_len (s : Sock.socket) (n : Z)
  : option (result (list byte) * Sock.socket) :=
  recv_loop (Z.to_nat n) n [] s.

(** [while i < len(data)], with [todo] passes allowed. *)
Fixpoint deserialize_rle_loop (todo : nat) (data : list byte) (i : nat) (out : list byte)
  : option (result (list byte)) :=
  if (i <? length data)%nat then
    match todo with
    | O => None
    | S todo' =>
        let run_data := take 5 (drop i data) in
        let i := (i + 5)%nat in
        match unpack_IB run_data with
        | Raise e => Some (Raise e)
        | Return (count, val) =>
            deserialize_rle_loop todo' data i (out ++ replicate (Z.to_nat count) val)
        end
    end
  else Some (Return out).

Definition deserialize_rle (data : list byte) : option (result (list byte)) :=
  deserialize_rle_loop (length data) data 0 [].

Definition chunk_data_to_value_array (raw_data : list byte) : option (result (list byte)) :=
  match raw_data with
  | [] => Some (Raise IndexError)
  | b :: data_body =>
      let serialization_type_code := Z_of_byte b in
      if serialization_type_code =? 0 then Some (Return data_body)
      else if serialization_type_code =? 1 then deserialize_rle data_body
      else Some (Raise UnknownSerializationType)
  end.

(** Lines 95-102 of [get_chunk]: from the received payload to the values. *)
Definition decode_chunk (raw_data : list byte) : option (result (list Z)) :=
  match chunk_data_to_value_array raw_data with
  | None => None
  | Some (Raise e) => Some (Raise e)
  | Some (Return data) =>
      if negb (Z.of_nat (length data) =? CHUNK_WIDTH * CHUNK_WIDTH)
      then Some (Raise IncorrectDataLength)
      else Some (Return (map Z_of_byte data))
  end.

(** [get_chunk(srv_addr, srv_port, level, index_real, index_imag)] on the
    connection [s] it opens; the result is the pair the function returns. *)
Definition get_chunk (level index_real index_imag : Z) (s : Sock.socket)
  : option (result (option (list Z) * bool) * Sock.socket) :=
  match Sock.bind (Sock.lift (pack_III level index_real index_imag)) Sock.send s with
  | (Raise e, s) => Some (Raise e, s)
  | (Return _, s) =>
  match Sock.bind (Sock.recv 1) (fun x => Sock.lift (unpack_B x)) s with
  | (Raise e, s) => Some (Raise e, s)
  | (Return status, s) =>
  if status =? REQUEST_NOT_AVAILABLE_CODE then Some (Return (None, false), s)
  else if status =? REQUEST_REJECT_CODE then Some (Raise RequestRejected, s)
  else if negb (status =? REQUEST_ACCEPT_CODE) then Some (Raise (UnknownRequestStatus status), s)
  else
  match Sock.bind (Sock.recv 4) (fun x => Sock.lift (unpack_I x)) s with
  | (Raise e, s) => Some (Raise e, s)
  | (Return resp_len, s) =>
  match recv_sock_msg_by_len s resp_len with
  | None => None
  | Some (Raise e, s) => Some (Raise e, s)
  | Some (Return raw_data, s) =>
  match decode_chunk raw_data with
  | None => None
  | Some (Raise e) => Some (Raise e, s)
  | Some (Return vs) =>
      let (_, s) := Sock.close s in
      Some (Return (Some vs, true), s)
  end end end end end.

(** An RGBA pixel: the last axis of the arrays of [data_to_img_array]. *)
Definition rgba : Type := float * float * float * float.

(** What an [assert] lets through, or its [AssertionError]. *)
Inductive asserted (A : Type) : Type :=
| Passed (a : A)
| AssertionError.

Arguments Passed {A} a.
Arguments AssertionError {A}.

(** [a.reshape((rows, cols))] of a flat array of [rows * cols] entries, as
    the list of its rows. *)
Definition np_reshape2 {A} (rows cols : Z) (a : list A) : list (list A) :=
  map (fun r => take (Z.to_nat cols) (drop (r * Z.to_nat cols) a)) (seq 0 (Z.to_nat rows)).

Section Display.

(** [matplotlib.cm.jet] on one value of the array it is applied to: the
    colour map is the library's, and a parameter here. *)
Variable jet : float -> rgba.

(** [data] is the flat [uint8] array; a list has one dimension, so the first
    [assert] holds. *)
Definition data_to_img_array (data : list Z) : asserted (list (list rgba)) :=
  if negb (Z.of_nat (length data) =? CHUNK_WIDTH * CHUNK_WIDTH) then AssertionError else
  let vs := np_reshape2 CHUNK_WIDTH CHUNK_WIDTH data in
  let vs := map (map (fun v => (float_of_Z v / 256)%float)) vs in
  let vs := map (map (fun v => (1 - v)%float)) vs in
  let colormapped := map (map jet) vs in
  let BLACK : rgba := (0, 0, 0, 1)%float in
  let img :=
    zip_with (zip_with (fun v c => if PrimFloat.eqb v 1 then BLACK else c)) vs colormapped in
  Passed img.



End Display.

End Viewer.

(** ** The escape-time contract, in the specification's words *)

Module EscapeTime.

(** Complex numbers as pairs of float64, as the kernel has them. *)
Definition csqr (z : float * float) : float * float :=
  (z.1 * z.1 - z.2 * z.2, 2 * z.1 * z.2)%float.

Definition cadd (z c : float * float) : float * float :=
  (z.1 + c.1, z.2 + c.2)%float.

(** [orbit c k]: the value of [z] after [k] iterations of [z <- z² + c]
    started from [z = c]. *)
Definition orbit (c : float * float) (k : nat) : float * float :=
  Nat.iter k (fun z => cadd (csqr z) c) c.

(** [|z|² >= 4] at the [k]-th iteration. *)
Definition escapes_at (c : float * float) (k : Z) : Prop :=
  Worker.escaped (orbit c (Z.to_nat k)) = true.

End EscapeTime.

(** ** The coordinator *)

Module Coordinator.

(** Modelled from the spec: the coordinator, the server that both clients
    talk to, is not among the sources.  A tile address is the triple
    (level, indexReal, indexImag) of section 3. *)
Definition TileAddress : Type := Z * Z * Z.

(** Modelled from the spec: the coordinator's worker identities. *)
Definition WorkerId : Type := nat.

(** Modelled from the spec: the coordinator's tiles, the bytes of a grid. *)
Definition Tile : Type := list byte.

(** Modelled from the spec: the coordinator's lifecycle states of a workload
    (section 3), [Pending -> Assigned(workerId) -> Completed]; an address
    with no state is unseen. *)
Inductive Workload : Type :=
| Pending
| Assigned (w : WorkerId)
| Completed.

(** Modelled from the spec: the coordinator's state, the assignment table,
    the pending addresses oldest first, and the cache of section 3. *)
Record state : Type := mkState {
  workloads : gmap TileAddress Workload;
  queue : list TileAddress;
  cache : gmap TileAddress Tile
}.

(** Modelled from the spec: the replies of the coordinator (section 6). *)
Inductive reply : Type :=
| Accept (tile : Tile)
| NotAvailable
| WorkloadAvailable (a : TileAddress)
| WorkloadNotAvailable
| WorkloadAccept
| Reject.

(** Modelled from the spec: the coordinator's RequestChunk (section 4.4):
    the cached tile of a completed address, else [NotAvailable] at once,
    registering the demand for an unseen address. *)
Definition request_chunk (a : TileAddress) (st : state) : reply * state :=
  match workloads st !! a with
  | Some Completed =>
      (match cache st !! a with Some tile => Accept tile | None => NotAvailable end, st)
  | Some _ => (NotAvailable, st)
  | None => (NotAvailable, mkState (<[a := Pending]> (workloads st)) (queue st ++ [a]) (cache st))
  end.

(** Modelled from the spec: the coordinator's choice of a workload, the
    oldest address of the queue that is still pending. *)
Fixpoint next_pending (table : gmap TileAddress Workload) (q : list TileAddress)
  : option (TileAddress * list TileAddress) :=
  match q with
  | [] => None
  | a :: q' =>
      match table !! a with
      | Some Pending => Some (a, q')
      | _ => next_pending table q'
      end
  end.

(** Modelled from the spec: the coordinator's RequestWorkload (section 4.4):
    the oldest pending address becomes [Assigned] to the caller. *)
Definition request_workload (w : WorkerId) (st : state) : reply * state :=
  match next_pending (workloads st) (queue st) with
  | Some (a, q') =>
      (WorkloadAvailable a, mkState (<[a := Assigned w]> (workloads st)) q' (cache st))
  | None => (WorkloadNotAvailable, mkState (workloads st) [] (cache st))
  end.

(** Modelled from the spec: the coordinator's SubmitResult (section 4.4):
    accepted, stored and completed when the address is assigned to the
    submitting worker; rejected with no change of state when it is completed
    or assigned to another worker.  For a pending or unseen address, of
    which the specification says nothing, the model rejects likewise. *)
Definition submit_result (w : WorkerId) (a : TileAddress) (tileBytes : Tile) (st : state)
  : reply * state :=
  match workloads st !! a with
  | Some (Assigned w') =>
      if decide (w = w')
      then (WorkloadAccept,
            mkState (<[a := Completed]> (workloads st)) (queue st) (<[a := tileBytes]> (cache st)))
      else (Reject, st)
  | _ => (Reject, st)
  end.

(** Modelled from the spec: the coordinator's lease expiry (section 3):
    an assigned address goes back to pending. *)
Definition expire_lease (a : TileAddress) (st : state) : state :=
  match workloads st !! a with
  | Some (Assigned _) => mkState (<[a := Pending]> (workloads st)) (queue st ++ [a]) (cache st)
  | _ => st
  end.

(** Modelled from the spec: what can happen to the coordinator. *)
Inductive event : Type :=
| RequestChunk (a : TileAddress)
| RequestWorkload (w : WorkerId)
| SubmitResult (w : WorkerId) (a : TileAddress) (tileBytes : Tile)
| ExpireLease (a : TileAddress).

(** Modelled from the spec: the coordinator's state after one event. *)
Definition step (st : state) (ev : event) : state :=
  match ev with
  | RequestChunk a => (request_chunk a st).2
  | RequestWorkload w => (request_workload w st).2
  | SubmitResult w a tileBytes => (submit_result w a tileBytes st).2
  | ExpireLease a => expire_lease a st
  end.

(** Modelled from the spec: the coordinator's state after a sequence of
    events. *)
Definition run (evs : list event) (st : state) : state := foldl step st evs.

(** Modelled from the spec: the coordinator's state at start, nothing seen
    and nothing cached. *)
Definition initial : state := mkState ∅ [] ∅.

End Coordinator.

(** ** Notions the statements below use *)

Module Notions.

Local Open Scope Z_scope.

(** The runs of an RLE body, run by run. *)
Fixpoint rle_runs (data : list byte) : list (Z * byte) :=
  match data with
  | b0 :: b1 :: b2 :: b3 :: v :: rest => (uint_of_bytes [b0; b1; b2; b3], v) :: rle_runs rest
  | _ => []
  end.

(** The body that a sequence of runs [(count, value)] is sent as. *)
Definition rle_body (runs : list (Z * byte)) : list byte :=
  runs ≫= (fun run => pack_IB run.1 run.2).

(** [count] copies of each run's value, in run order. *)
Definition rle_expand (runs : list (Z * byte)) : list byte :=
  runs ≫= (fun run => replicate (Z.to_nat run.1) run.2).

(** Decoding the payload [raw] ends in an exception. *)
Definition decode_fails (raw : list byte) : Prop :=
  exists e, Viewer.decode_chunk raw = Some (Raise e).

(** The three causes of rejection that the specification lists. *)
Definition unknown_tag (raw : list byte) : Prop :=
  exists b body, raw = b :: body /\ Z_of_byte b <> 0 /\ Z_of_byte b <> 1.

Definition rle_body_misaligned (raw : list byte) : Prop :=
  exists b body, raw = b :: body /\ Z_of_byte b = 1 /\ (length body `mod` 5)%nat <> O.

Definition reconstructed_length_wrong (raw : list byte) : Prop :=
  exists data, Viewer.chunk_data_to_value_array raw = Some (Return data)
    /\ Z.of_nat (length data) <> Viewer.CHUNK_WIDTH * Viewer.CHUNK_WIDTH.

Definition format_rejected (raw : list byte) : Prop :=
  unknown_tag raw \/ rle_body_misaligned raw \/ reconstructed_length_wrong raw.

(** The sum of the counts of a sequence of runs. *)
Definition rle_total (runs : list (Z * byte)) : Z :=
  foldr (fun run acc => run.1 + acc) 0 runs.

(** The three fields of an address all fit [uint32]. *)
Definition uint32_address (a b c : Z) : bool :=
  is_uint32 a && is_uint32 b && is_uint32 c.

(** Whether the normalisation of [count] under the cap 1024 has an integral
    part, which is [count * 256 / 1024] and lies in 0..255. *)
Definition normalize_ok (count : Z) : bool :=
  match float64_trunc (float_of_Z count * 256 / float_of_Z 1024)%float with
  | Some q => (q =? count * 256 / 1024) && (0 <=? q) && (q <=? 255)
  | None => false
  end.

End Notions.

(** * Theorems *)

(** ** The escape-time kernel *)

Section Kernel.

Local Open Scope Z_scope.
Import Worker EscapeTime Notions.

Lemma orbit_succ (c : float * float) (k : nat) :
  orbit c (S k) = mb_step c (orbit c k).
Proof. reflexivity. Qed.

Lemma escapes_at_succ (c : float * float) (j : nat) :
  escapes_at c (Z.of_nat j + 1) <-> escaped (mb_step c (orbit c j)) = true.
Proof.
  unfold escapes_at.
  replace (Z.to_nat (Z.of_nat j + 1)) with (S j) by lia.
  by rewrite orbit_succ.
Qed.

(** The loop entered at index [j + 1] with [z] the [j]-th iterate returns the
    first index in [j+1 .. j+todo] at which the orbit escapes, and 0 when
    there is none. *)
Lemma calc_mb_loop_spec (c : float * float) (todo : nat) :
  forall j : nat,
    let n := calc_mb_loop c todo (Z.of_nat j + 1) (orbit c j) in
    (n = 0 /\ forall k, Z.of_nat j < k <= Z.of_nat j + Z.of_nat todo -> ~ escapes_at c k)
    \/ (Z.of_nat j < n <= Z.of_nat j + Z.of_nat todo /\ escapes_at c n
        /\ forall k, Z.of_nat j < k < n -> ~ escapes_at c k).
Proof.
  induction todo as [|todo IH]; intros j; cbn zeta.
  - left. split; [done | lia].
  - cbn [calc_mb_loop]. destruct (escaped (mb_step c (orbit c j))) eqn:E.
    + right. split; [lia|]. split; [by apply escapes_at_succ | lia].
    + assert (Hj : ~ escapes_at c (Z.of_nat j + 1)).
      { rewrite escapes_at_succ, E. discriminate. }
      specialize (IH (S j)). cbn zeta in IH.
      rewrite orbit_succ in IH.
      replace (Z.of_nat (S j) + 1) with (Z.of_nat j + 1 + 1) in IH by lia.
      destruct IH as [[H0 Hno] | (Hr & He & Hno)].
      * left. split; [done|]. intros k Hk.
        destruct (decide (k = Z.of_nat j + 1)) as [->|]; [done|]. apply Hno. lia.
      * right. split; [lia|]. split; [done|]. intros k Hk.
        destruct (decide (k = Z.of_nat j + 1)) as [->|]; [done|]. apply Hno. lia.
Qed.

Lemma calc_mb_value_range (r i : float) (mrd : Z) :
  0 <= calc_mb_value r i mrd < Z.max 1 mrd.
Proof.
  unfold calc_mb_value.
  pose proof (calc_mb_loop_spec (r, i) (Z.to_nat (mrd - 1)) 0) as H.
  cbn zeta in H. change (orbit (r, i) 0) with (r, i) in H.
  change (Z.of_nat 0 + 1) with 1 in H. lia.
Qed.



Lemma calc_mb_value_vec_zero (rs is_ : list float) (mrd : Z) :
  (forall r i, calc_mb_value r i mrd = 0) ->
  calc_mb_value_vec rs is_ mrd = replicate (length rs `min` length is_) 0.
Proof.
  intros H. unfold calc_mb_value_vec.
  revert is_. induction rs as [|r rs IH]; intros [|i is_]; cbn; try done.
  by rewrite H, IH.
Qed.

(** The quotient of zero by any float64 is a zero or not a number: its
    [uint8] cast is 0. *)
Lemma astype_uint8_zero_div (x : float) : astype_uint8 (0 / x)%float = 0.
Proof.
  unfold astype_uint8, float64_trunc. rewrite div_spec.
  change (Prim2SF 0) with (S754_zero false).
  by destruct (Prim2SF x).
Qed.

Lemma normalize_zero (mrd : Z) : normalize mrd 0 = 0.
Proof.
  unfold normalize.
  change (float_of_Z 0 * 256)%float with 0%float.
  apply astype_uint8_zero_div.
Qed.

(** C10: under a cap [mrd <= 1] the loop body of [calc_mb_value] never runs
    and the kernel returns 0 for every point, so every sample of the
    vectorised kernel is 0 and its normalised byte is 0 (interior).  At
    [mrd = 0] the normalising quotient is not a number, whose cast the model
    takes as 0. *)
Theorem calc_mb_value_small_cap (mrd : Z) (Hcap : mrd <= 1) :
  (forall r i : float, calc_mb_value r i mrd = 0)
  /\ (forall rs is_ : list float,
        Forall (fun n => n = 0) (calc_mb_value_vec rs is_ mrd)
        /\ Forall (fun b => b = 0) (map (normalize mrd) (calc_mb_value_vec rs is_ mrd))).
Proof.
  assert (H : forall r i : float, calc_mb_value r i mrd = 0).
  { intros r i. unfold calc_mb_value.
    by replace (Z.to_nat (mrd - 1)) with O by lia. }
  split; [done|]. intros rs is_.
  rewrite (calc_mb_value_vec_zero _ _ _ H).
  split.
  - by apply Forall_replicate.
  - rewrite Forall_map. apply Forall_replicate. apply normalize_zero.
Qed.

Lemma calc_mb_value_small_cap_witness :
  1 <= 1 /\ calc_mb_value 2 2 1 = 0.
Proof.
  split; [lia|]. apply (calc_mb_value_small_cap 1); lia.
Defined.

(** The normalisation of every count below the cap 1024, checked count by
    count. *)
Lemma normalize_ok_table : forallb normalize_ok (map Z.of_nat (seq 0 1024)) = true.
Proof. vm_compute. reflexivity. Qed.

Lemma normalize_below_cap (count : Z) :
  0 <= count < 1024 ->
  float64_trunc (float_of_Z count * 256 / float_of_Z 1024)%float = Some (count * 256 / 1024)
  /\ 0 <= count * 256 / 1024 <= 255.
Proof.
  intros Hc.
  pose proof (proj1 (forallb_forall _ _) normalize_ok_table count) as H.
  unfold normalize_ok in H.
  destruct (float64_trunc _) as [q|].
  - assert (Hin : In count (map Z.of_nat (seq 0 1024))).
    { apply in_map_iff. exists (Z.to_nat count). split; [lia|].
      apply in_seq. lia. }
    specialize (H Hin).
    apply andb_prop in H as [H H3]. apply andb_prop in H as [H1 H2].
    apply Z.eqb_eq in H1. subst q. split; [done|]. lia.
  - exfalso. assert (Hin : In count (map Z.of_nat (seq 0 1024))).
    { apply in_map_iff. exists (Z.to_nat count). split; [lia|].
      apply in_seq. lia. }
    specialize (H Hin). discriminate.
Qed.

(** C3: for every iteration count the kernel produces under the cap 1024,
    the normalised byte is [floor(count * 256 / 1024)]; the float64 quotient
    has this integral part, in 0..255, so the [uint8] cast neither wraps nor
    is undefined; and the count 0 maps to the byte 0. *)
Theorem normalize_spec (r i : float) :
  let count := calc_mb_value r i 1024 in
  float64_trunc (float_of_Z count * 256 / float_of_Z 1024)%float = Some (count * 256 / 1024)
  /\ normalize 1024 count = count * 256 / 1024
  /\ 0 <= normalize 1024 count <= 255
  /\ normalize 1024 0 = 0.
Proof.
  intros count.
  assert (Hc : 0 <= count < 1024).
  { pose proof (calc_mb_value_range r i 1024). subst count. lia. }
  destruct (normalize_below_cap count Hc) as [Ht Hb].
  assert (Hn : normalize 1024 count = count * 256 / 1024).
  { unfold normalize, astype_uint8. rewrite Ht. apply Z.mod_small. lia. }
  repeat split; try done; try (rewrite Hn; lia).
Qed.

(** C2: the window of a tile address is [range = (MAX_AXIS - MIN_AXIS) / level],
    [startReal = MIN_AXIS + range * indexReal],
    [startImag = MIN_AXIS + range * indexImag] in float64, a function of the
    address alone; the address (1, 0, 0) has the window (-2, -2, 4); and at
    level 0 the division raises (Python's [ZeroDivisionError]) and there is
    no window. *)
Theorem chunk_window_spec (level index_real index_imag : Z) :
  (level <> 0 ->
   let range := (float_of_Z (MAX_AXIS - MIN_AXIS) / float_of_Z level)%float in
   chunk_window level index_real index_imag =
   Return ((float_of_Z MIN_AXIS + range * float_of_Z index_real)%float,
           (float_of_Z MIN_AXIS + range * float_of_Z index_imag)%float,
           range))
  /\ MIN_AXIS = -2 /\ MAX_AXIS = 2
  /\ chunk_window 1 0 0 = Return ((-2)%float, (-2)%float, 4%float)
  /\ chunk_window 0 index_real index_imag = Raise ZeroDivisionError
  /\ process_workload 0 index_real index_imag = Raise ZeroDivisionError.
Proof.
  split.
  - intros Hl. unfold chunk_window.
    by destruct (Z.eqb_spec level 0).
  - repeat split.
Qed.

End Kernel.

(** ** The sample grid *)

Section Grid.
Local Open Scope Z_scope.
Import Worker.

Lemma np_linspace_length (start stop : float) (num : Z) :
  0 <= num ->
  exists y, np_linspace start stop num = Return y /\ length y = Z.to_nat num.
Proof.
  intros Hn. unfold np_linspace.
  destruct (Z.ltb_spec num 0) as [|_]; [lia|].
  eexists. split; [reflexivity|].
  destruct (1 <? num); [rewrite length_insert|];
    destruct (0 <? num - 1); [destruct (PrimFloat.eqb _ 0)| | destruct (PrimFloat.eqb _ 0)| ];
    by rewrite !length_map, length_seq.
Qed.


Lemma lookup_np_tile {A} (a : list A) (reps : nat) (row col : nat) :
  (row < reps)%nat -> (col < length a)%nat ->
  mjoin (replicate reps a) !! (row * length a + col)%nat = a !! col.
Proof.
  revert row. induction reps as [|reps IH]; intros row Hr Hc; [lia|].
  change (mjoin (replicate (S reps) a)) with (a ++ mjoin (replicate reps a)).
  destruct row as [|row].
  - cbn. by rewrite lookup_app_l.
  - rewrite lookup_app_r by (cbn; lia).
    replace (S row * length a + col - length a)%nat with (row * length a + col)%nat by (cbn; lia).
    apply IH; lia.
Qed.

Lemma lookup_np_repeat {A} (a : list A) (reps : nat) (row col : nat) :
  (col < reps)%nat ->
  (a ≫= replicate reps) !! (row * reps + col)%nat = a !! row.
Proof.
  revert row. induction a as [|x a IH]; intros row Hc; [done|].
  rewrite bind_cons.
  destruct row as [|row].
  - cbn [Nat.mul Nat.add]. rewrite lookup_app_l by (rewrite length_replicate; lia).
    cbn. by apply lookup_replicate_2.
  - rewrite lookup_app_r by (rewrite length_replicate; cbn; lia).
    rewrite length_replicate.
    replace (S row * reps + col - reps)%nat with (row * reps + col)%nat by (cbn; lia).
    cbn. by apply IH.
Qed.

Lemma length_np_tile {A} (a : list A) (reps : nat) :
  length (mjoin (replicate reps a)) = (reps * length a)%nat.
Proof.
  induction reps as [|reps IH]; [done|].
  change (mjoin (replicate (S reps) a)) with (a ++ mjoin (replicate reps a)).
  rewrite length_app, IH. lia.
Qed.

Lemma length_np_repeat {A} (a : list A) (reps : nat) :
  length (a ≫= replicate reps) = (length a * reps)%nat.
Proof.
  induction a as [|x a IH]; [done|].
  rewrite bind_cons, length_app, length_replicate, IH. cbn. lia.
Qed.


End Grid.

(** ** Reading from a socket *)

Section Reading.
Local Open Scope Z_scope.
Import Viewer.

(** What [recv] returns is a prefix of the bytes still to arrive, of at most
    [n] bytes, and it is empty only when asked for nothing or at end of
    stream. *)
Lemma recv_segments_spec (n : nat) (segs : list (list byte)) :
  forall x segs', Sock.recv_segments n segs = (x, segs') ->
    x ++ mjoin segs' = mjoin segs
    /\ (length x <= n)%nat
    /\ (x = [] -> n = O \/ mjoin segs = []).
Proof.
  induction segs as [|seg segs IH]; intros x segs' H; cbn in H.
  - injection H as <- <-. split; [done|]. split; [cbn; lia|]. by right.
  - destruct seg as [|b seg].
    + apply IH in H as (H1 & H2 & H3). by repeat split.
    + injection H as <- <-.
      change (mjoin ((b :: seg) :: segs)) with ((b :: seg) ++ mjoin segs).
      split; [|split].
      * destruct (drop n (b :: seg)) as [|y l] eqn:Hd.
        -- rewrite <- (take_drop n (b :: seg)) at 2. by rewrite Hd, app_nil_r.
        -- change (mjoin ((y :: l) :: segs)) with ((y :: l) ++ mjoin segs).
           rewrite <- Hd, app_assoc. by rewrite take_drop.
      * rewrite length_take. lia.
      * intros Hx. left. destruct n; [done|]. discriminate.
Qed.

Lemma recv_loop_spec (todo : nat) (n : Z) :
  forall (out : list byte) (s : Sock.socket),
    n - Z.of_nat (length out) <= Z.of_nat todo ->
    exists r s', recv_loop todo n out s = Some (r, s')
      /\ match r with
         | Return msg =>
             exists x, msg = out ++ x /\ x ++ Sock.pending s' = Sock.pending s
               /\ Z.of_nat (length msg) = Z.max (Z.of_nat (length out)) n
         | Raise e =>
             e = EOFReached /\ Z.of_nat (length out) + Z.of_nat (length (Sock.pending s)) < n
         end.
Proof.
  induction todo as [|todo IH]; intros out s Hfuel.
  - cbn [recv_loop]. destruct (Z.ltb_spec (Z.of_nat (length out)) n) as [Hlt|Hge]; [lia|].
    exists (Return out), s. split; [done|]. exists []. rewrite app_nil_r. repeat split; try done; lia.
  - cbn [recv_loop]. destruct (Z.ltb_spec (Z.of_nat (length out)) n) as [Hlt|Hge].
    + unfold Sock.recv.
      destruct (Sock.recv_segments _ (Sock.incoming s)) as [x segs'] eqn:Hrecv.
      apply recv_segments_spec in Hrecv as (Hcat & Hlen & Hempty).
      destruct x as [|b x].
      * eexists _, _. split; [done|]. split; [done|].
        destruct (Hempty eq_refl) as [H0|H0]; [lia|].
        unfold Sock.pending. rewrite H0. cbn. lia.
      * set (s1 := Sock.mkSocket segs' (Sock.sent s) (Sock.closed s)).
        destruct (IH (out ++ b :: x) s1) as (r & s' & Hr & Hspec).
        { rewrite length_app. cbn [length]. lia. }
        exists r, s'. split; [done|].
        assert (Hp : (b :: x) ++ Sock.pending s1 = Sock.pending s) by done.
        destruct r as [msg|e].
        -- destruct Hspec as (y & -> & Hy & Hl).
           exists ((b :: x) ++ y). split; [by rewrite <- app_assoc|].
           split; [rewrite <- Hp, <- Hy; by rewrite <- app_assoc|].
           rewrite !length_app in *. cbn [length] in *. lia.
        -- destruct Hspec as [-> Hl]. split; [done|].
           rewrite <- Hp. rewrite !length_app in *. cbn [length] in *. lia.
    + exists (Return out), s. split; [done|]. exists []. rewrite app_nil_r. repeat split; try done; lia.
Qed.

(** [recv_sock_msg_by_len(s, n)] always comes back; it returns exactly the
    next [n] bytes of the stream, however they are segmented, and raises at
    end of stream exactly when fewer than [n] bytes were left. *)
Lemma recv_sock_msg_by_len_spec (s : Sock.socket) (n : Z) :
  exists r s', recv_sock_msg_by_len s n = Some (r, s')
    /\ match r with
       | Return msg =>
           msg ++ Sock.pending s' = Sock.pending s /\ Z.of_nat (length msg) = Z.max 0 n
       | Raise e => e = EOFReached /\ Z.of_nat (length (Sock.pending s)) < n
       end.
Proof.
  unfold recv_sock_msg_by_len.
  destruct (recv_loop_spec (Z.to_nat n) n [] s) as (r & s' & Hr & Hspec).
  { cbn. lia. }
  exists r, s'. split; [done|]. destruct r as [msg|e].
  - destruct Hspec as (x & -> & Hx & Hl). cbn in *. done.
  - cbn in Hspec. done.
Qed.

End Reading.

(** ** The tile codec *)

Section Codec.
Local Open Scope Z_scope.
Import Viewer Notions.

Lemma Z_of_byte_range (b : byte) : 0 <= Z_of_byte b < 256.
Proof. unfold Z_of_byte. pose proof (Byte.to_N_bounded b). lia. Qed.

Lemma byte_of_Z_of_byte (b : byte) : byte_of_Z (Z_of_byte b) = b.
Proof.
  unfold byte_of_Z. rewrite Z.mod_small by apply Z_of_byte_range.
  unfold Z_of_byte. rewrite N2Z.id. by rewrite Byte.of_to_N.
Qed.

Lemma Z_of_byte_of_Z (z : Z) : Z_of_byte (byte_of_Z z) = z mod 256.
Proof.
  unfold byte_of_Z, Z_of_byte.
  pose proof (Z.mod_pos_bound z 256 ltac:(lia)) as Hb.
  destruct (Byte.of_N (Z.to_N (z mod 256))) as [b|] eqn:E.
  - apply Byte.to_of_N in E. rewrite E. lia.
  - apply Byte.of_N_None_iff in E. lia.
Qed.

Lemma uint_of_bytes_uint32 (v : Z) :
  0 <= v < 4294967296 -> uint_of_bytes (bytes_of_uint32 v) = v.
Proof.
  intros Hv. unfold bytes_of_uint32, uint_of_bytes. cbn [foldr].
  rewrite !Z_of_byte_of_Z.
  pose proof (Z.div_mod v 256 ltac:(lia)).
  pose proof (Z.div_mod (v / 256) 256 ltac:(lia)).
  pose proof (Z.div_mod (v / 256 / 256) 256 ltac:(lia)).
  replace (v / 65536) with (v / 256 / 256) by (rewrite Z.div_div by lia; reflexivity).
  replace (v / 16777216) with (v / 256 / 256 / 256) by (rewrite !Z.div_div by lia; reflexivity).
  assert ((v / 256 / 256 / 256) mod 256 = v / 256 / 256 / 256).
  { apply Z.mod_small. rewrite !Z.div_div by lia. split.
    - apply Z.div_pos; lia.
    - apply Z.div_lt_upper_bound; lia. }
  lia.
Qed.

Lemma uint_of_bytes_range (bs : list byte) :
  0 <= uint_of_bytes bs < 256 ^ Z.of_nat (length bs).
Proof.
  induction bs as [|b bs IH]; [cbn; lia|].
  cbn [uint_of_bytes foldr length]. fold (uint_of_bytes bs).
  rewrite Nat2Z.inj_succ, Z.pow_succ_r by lia.
  pose proof (Z_of_byte_range b). nia.
Qed.

Lemma unpack_pack_IB (count : Z) (val : byte) :
  0 <= count < 4294967296 -> unpack_IB (pack_IB count val) = Return (count, val).
Proof.
  intros Hc. unfold pack_IB, unpack_IB.
  change (bytes_of_uint32 count ++ [val]) with
    [byte_of_Z count; byte_of_Z (count / 256); byte_of_Z (count / 65536);
     byte_of_Z (count / 16777216); val].
  cbv iota beta.
  change [byte_of_Z count; byte_of_Z (count / 256); byte_of_Z (count / 65536);
          byte_of_Z (count / 16777216)] with (bytes_of_uint32 count).
  by rewrite uint_of_bytes_uint32.
Qed.

(** The loop of [deserialize_rle], entered at the index [length pre] of
    [pre ++ rest] with enough passes left: it appends the expansion of the
    runs of [rest] when [rest] is made of whole runs, and raises otherwise. *)
Lemma deserialize_rle_loop_spec (n : nat) :
  forall (rest pre out : list byte) (todo : nat),
    (length rest <= n)%nat -> (length rest <= todo)%nat ->
    deserialize_rle_loop todo (pre ++ rest) (length pre) out =
    Some (if decide ((length rest `mod` 5)%nat = O)
          then Return (out ++ rle_expand (rle_runs rest))
          else Raise StructError).
Proof.
  induction n as [|n IH]; intros rest pre out todo Hn Hfuel.
  - destruct rest; [|cbn in Hn; lia].
    destruct todo; cbn [deserialize_rle_loop];
      rewrite app_nil_r, Nat.ltb_irrefl; cbn; by rewrite app_nil_r.
  - destruct rest as [|b0 rest].
    { destruct todo; cbn [deserialize_rle_loop];
        rewrite app_nil_r, Nat.ltb_irrefl; cbn; by rewrite app_nil_r. }
    destruct todo as [|todo]; [cbn in Hfuel; lia|].
    cbn [deserialize_rle_loop].
    assert (Hlt : (length pre <? length (pre ++ b0 :: rest))%nat = true).
    { apply Nat.ltb_lt. rewrite length_app. cbn. lia. }
    rewrite Hlt. rewrite drop_app_length.
    destruct rest as [|b1 [|b2 [|b3 [|v rest]]]]; try done.
    change (take 5 (b0 :: b1 :: b2 :: b3 :: v :: rest)) with [b0; b1; b2; b3; v].
    cbn [unpack_IB].
    replace (pre ++ b0 :: b1 :: b2 :: b3 :: v :: rest)
      with ((pre ++ [b0; b1; b2; b3; v]) ++ rest) by (by rewrite <- app_assoc).
    replace (length pre + 5)%nat with (length (pre ++ [b0; b1; b2; b3; v]))
      by (rewrite length_app; done).
    rewrite (IH rest) by (cbn in *; lia).
    cbn [length].
    replace (S (S (S (S (S (length rest)))))) with (length rest + 1 * 5)%nat by lia.
    rewrite Nat.Div0.mod_add.
    destruct (decide _); [|done].
    cbn [rle_runs]. unfold rle_expand. rewrite bind_cons. cbn [fst snd].
    by rewrite app_assoc.
Qed.

(** [deserialize_rle] always comes back: with the expansion of the runs when
    the body is made of whole 5-byte runs, with [struct.error] otherwise. *)
Lemma deserialize_rle_spec (data : list byte) :
  deserialize_rle data =
  Some (if decide ((length data `mod` 5)%nat = O)
        then Return (rle_expand (rle_runs data))
        else Raise StructError).
Proof.
  unfold deserialize_rle.
  pose proof (deserialize_rle_loop_spec (length data) data [] [] (length data)) as H.
  cbn [app length] in H. rewrite H by lia. done.
Qed.

Lemma rle_runs_body (runs : list (Z * byte)) :
  Forall (fun run => 0 <= run.1 < 4294967296) runs ->
  rle_runs (rle_body runs) = runs /\ length (rle_body runs) = (length runs * 5)%nat.
Proof.
  induction 1 as [|[count val] runs Hc _ [IH1 IH2]]; [done|].
  unfold rle_body. rewrite bind_cons. fold (rle_body runs). cbn [fst snd] in *.
  unfold pack_IB, bytes_of_uint32. cbn [app rle_runs length].
  rewrite IH1, IH2. split; [|lia].
  f_equal. f_equal. exact (uint_of_bytes_uint32 count Hc).
Qed.

(** C5: decoding a well-formed RLE body, a sequence of 5-byte runs
    [(count : uint32, value : uint8)], gives [count] copies of each run's
    value, concatenated in run order; the runs (10, 5), (6, 200) decode to
    ten bytes 5 followed by six bytes 200. *)
Theorem deserialize_rle_runs (runs : list (Z * byte))
    (Hruns : Forall (fun run => 0 <= run.1 < 4294967296) runs) :
  deserialize_rle (rle_body runs) = Some (Return (rle_expand runs))
  /\ rle_expand runs = runs ≫= (fun run => replicate (Z.to_nat run.1) run.2)
  /\ deserialize_rle (rle_body [(10, x05); (6, xc8)]) =
     Some (Return (replicate 10 x05 ++ replicate 6 xc8)).
Proof.
  destruct (rle_runs_body runs Hruns) as [Hr Hl].
  rewrite deserialize_rle_spec, Hr, Hl, Nat.Div0.mod_mul.
  split; [by destruct (decide _)|]. split; reflexivity.
Qed.

Lemma deserialize_rle_runs_witness :
  Forall (fun run => 0 <= run.1 < 4294967296) [(3, x07); (0, x01); (2, xff)]
  /\ deserialize_rle (rle_body [(3, x07); (0, x01); (2, xff)]) =
     Some (Return [x07; x07; x07; xff; xff]).
Proof.
  split.
  - repeat constructor; cbn; lia.
  - apply (deserialize_rle_runs [(3, x07); (0, x01); (2, xff)]).
    repeat constructor; cbn; lia.
Defined.

End Codec.

(** ** Decoding a received payload *)

Section Decoding.
Local Open Scope Z_scope.
Import Viewer Notions.

(** The outcome of [chunk_data_to_value_array], by the shape of the payload. *)
Lemma chunk_data_to_value_array_spec (raw : list byte) :
  chunk_data_to_value_array raw =
  Some match raw with
       | [] => Raise IndexError
       | b :: body =>
           if Z_of_byte b =? 0 then Return body
           else if Z_of_byte b =? 1 then
             if decide ((length body `mod` 5)%nat = O)
             then Return (rle_expand (rle_runs body))
             else Raise StructError
           else Raise UnknownSerializationType
       end.
Proof.
  destruct raw as [|b body]; [done|].
  unfold chunk_data_to_value_array.
  destruct (Z_of_byte b =? 0); [done|].
  destruct (Z_of_byte b =? 1); [|done].
  apply deserialize_rle_spec.
Qed.

Lemma decode_chunk_total (raw : list byte) :
  exists r, decode_chunk raw = Some r.
Proof.
  unfold decode_chunk. rewrite chunk_data_to_value_array_spec.
  destruct raw as [|b body]; [by eexists|].
  destruct (Z_of_byte b =? 0); [destruct (negb _); by eexists|].
  destruct (Z_of_byte b =? 1); [|by eexists].
  destruct (decide _); [|by eexists].
  destruct (negb _); by eexists.
Qed.

(** The empty payload, which [get_chunk] receives when the declared length
    is 0: decoding raises ([raw_data[0]] is an [IndexError]), and none of the
    three listed causes applies: there is no tag byte, no RLE body, and
    nothing was reconstructed. *)
Lemma decode_chunk_empty_payload :
  decode_chunk [] = Some (Raise IndexError)
  /\ ~ format_rejected []
  /\ ~ (decode_fails [] <-> format_rejected [])
  /\ (exists s', get_chunk 1 0 0 (Sock.connected [[x00; x00; x00; x00; x00]])
                 = Some (Raise IndexError, s')).
Proof.
  assert (Hf : decode_fails []) by (by exists IndexError).
  assert (Hn : ~ format_rejected []).
  { intros [(b & body & H & _) | [(b & body & H & _) | (data & H & _)]]; discriminate. }
  split; [done|]. split; [done|]. split; [|eexists; reflexivity].
  intros [H _]. by apply Hn, H.
Qed.

(** Decoding fails exactly when the payload is empty or one of the three
    listed causes applies. *)
Lemma decode_fails_iff (raw : list byte) :
  decode_fails raw <-> raw = [] \/ format_rejected raw.
Proof.
  unfold decode_fails, format_rejected, unknown_tag, rle_body_misaligned,
    reconstructed_length_wrong, decode_chunk.
  rewrite chunk_data_to_value_array_spec.
  destruct raw as [|b body].
  { split; [by left|]. intros _. by exists IndexError. }
  destruct (Z.eqb_spec (Z_of_byte b) 0) as [H0|H0].
  { destruct (Z.eqb_spec (Z.of_nat (length body)) (CHUNK_WIDTH * CHUNK_WIDTH)) as [Hl|Hl]; cbn [negb].
    - split; [intros [e He]; discriminate|].
      intros [H | [(b' & body' & H & H1 & _) | [(b' & body' & H & H1 & _) | (data & H & Hd)]]];
        simplify_eq; lia.
    - split; [|by eexists]. intros _. right. right. right. by exists body. }
  destruct (Z.eqb_spec (Z_of_byte b) 1) as [H1|H1].
  { destruct (decide ((length body `mod` 5)%nat = O)) as [Hm|Hm].
    - destruct (Z.eqb_spec (Z.of_nat (length (rle_expand (rle_runs body))))
                  (CHUNK_WIDTH * CHUNK_WIDTH)) as [Hl|Hl]; cbn [negb].
      + split; [intros [e He]; discriminate|].
        intros [H | [(b' & body' & H & H2 & H3) | [(b' & body' & H & H2 & H3) | (data & H & Hd)]]];
          simplify_eq; lia.
      + split; [|by eexists]. intros _. right. right. right. by eexists.
    - split; [|by eexists]. intros _. right. right. left. by exists b, body. }
  split; [|by eexists]. intros _. right. left. by exists b, body.
Qed.

(** What the caller gets when decoding succeeds: the whole reconstructed
    sequence, of length [CHUNK_WIDTH * CHUNK_WIDTH]. *)
Lemma decode_chunk_return (raw : list byte) (vs : list Z) :
  decode_chunk raw = Some (Return vs) ->
  Z.of_nat (length vs) = CHUNK_WIDTH * CHUNK_WIDTH
  /\ exists data, chunk_data_to_value_array raw = Some (Return data)
       /\ vs = map Z_of_byte data.
Proof.
  unfold decode_chunk.
  destruct (chunk_data_to_value_array raw) as [[data|e]|]; try done.
  destruct (Z.eqb_spec (Z.of_nat (length data)) (CHUNK_WIDTH * CHUNK_WIDTH)) as [Hl|Hl];
    cbn [negb]; [|done].
  intros [= <-]. rewrite length_map. split; [done|]. by exists data.
Qed.

(** A tile that [get_chunk] returns has [CHUNK_WIDTH * CHUNK_WIDTH] values. *)
Lemma get_chunk_return_tile (level index_real index_imag : Z) (s s' : Sock.socket)
    (vs : list Z) (flag : bool) :
  get_chunk level index_real index_imag s = Some (Return (Some vs, flag), s') ->
  Z.of_nat (length vs) = CHUNK_WIDTH * CHUNK_WIDTH /\ flag = true.
Proof.
  unfold get_chunk.
  destruct (Sock.bind (Sock.lift _) Sock.send s) as [[[]|e] s1]; [|done].
  destruct (Sock.bind (Sock.recv 1) _ s1) as [[status|e] s2]; [|done].
  destruct (status =? REQUEST_NOT_AVAILABLE_CODE); [done|].
  destruct (status =? REQUEST_REJECT_CODE); [done|].
  destruct (negb (status =? REQUEST_ACCEPT_CODE)); [done|].
  destruct (Sock.bind (Sock.recv 4) _ s2) as [[resp_len|e] s3]; [|done].
  destruct (recv_sock_msg_by_len s3 resp_len) as [[[raw|e] s4]|]; [|done|done].
  destruct (decode_chunk raw) as [[vs'|e]|] eqn:Hd; [|done|done].
  cbn. intros [= -> <- _]. split; [|done].
  by apply decode_chunk_return in Hd as [Hd _].
Qed.

(** C6 (amended): decoding a received payload always ends, and it ends in
    an exception exactly when the payload is empty (there is no tag byte),
    or the tag byte is neither 0 nor 1, or the tag is 1 and the length of
    the RLE body is not a multiple of 5, or the reconstructed sequence has a
    length other than [CHUNK_WIDTH * CHUNK_WIDTH] = 4096²; a result that is
    returned, by [decode_chunk] or by [get_chunk], is the whole tile. *)
Theorem decode_chunk_rejects (raw : list byte) :
  (exists r, decode_chunk raw = Some r)
  /\ (decode_fails raw <-> raw = [] \/ format_rejected raw)
  /\ (forall vs, decode_chunk raw = Some (Return vs) ->
        Z.of_nat (length vs) = 4096 * 4096
        /\ exists data, chunk_data_to_value_array raw = Some (Return data)
             /\ vs = map Z_of_byte data)
  /\ (forall level index_real index_imag s s' vs flag,
        get_chunk level index_real index_imag s = Some (Return (Some vs, flag), s') ->
        Z.of_nat (length vs) = 4096 * 4096).
Proof.
  split; [apply decode_chunk_total|].
  split; [apply decode_fails_iff|].
  split; [apply decode_chunk_return|].
  intros level index_real index_imag s s' vs flag H.
  by apply get_chunk_return_tile in H as [H _].
Qed.

End Decoding.

(** ** The sessions *)

Section Sessions.
Local Open Scope Z_scope.
Import Worker Viewer Notions.

Lemma unpack_I_uint32 (x : list byte) (v : Z) :
  unpack_I x = Return v -> is_uint32 v = true.
Proof.
  unfold unpack_I, is_uint32.
  destruct (Z.eqb_spec (Z.of_nat (length x)) 4) as [Hl|]; [|done].
  intros [= <-]. pose proof (uint_of_bytes_range x) as Hr.
  rewrite Hl in Hr. change (256 ^ 4) with 4294967296 in Hr.
  apply andb_true_intro. split; [apply Z.leb_le | apply Z.ltb_lt]; lia.
Qed.

Lemma receive_workload_uint32 (s s' : Sock.socket) (workload : Z * Z * Z) :
  receive_workload s = (Return workload, s') ->
  is_uint32 workload.1.1 && is_uint32 workload.1.2 && is_uint32 workload.2 = true.
Proof.
  unfold receive_workload, Sock.bind, Sock.lift, Sock.ret, Sock.recv.
  destruct (Sock.recv_segments 4 (Sock.incoming s)) as [x1 segs1]. cbn [Sock.incoming].
  destruct (unpack_I x1) as [level|] eqn:E1; [|done].
  destruct (Sock.recv_segments 4 segs1) as [x2 segs2]. cbn [Sock.incoming].
  destruct (unpack_I x2) as [indexReal|] eqn:E2; [|done].
  destruct (Sock.recv_segments 4 segs2) as [x3 segs3].
  destruct (unpack_I x3) as [indexImag|] eqn:E3; [|done].
  intros [= <- _]. cbn [fst snd].
  by rewrite (unpack_I_uint32 _ _ E1), (unpack_I_uint32 _ _ E2), (unpack_I_uint32 _ _ E3).
Qed.

Lemma receive_workload_session_uint32 (s s' : Sock.socket) (workload : Z * Z * Z) :
  receive_workload_session s = (Return (Some workload), s') ->
  is_uint32 workload.1.1 && is_uint32 workload.1.2 && is_uint32 workload.2 = true.
Proof.
  unfold receive_workload_session, Sock.bind, Sock.lift, Sock.send, Sock.ret,
    Sock.raise, Sock.close.
  change (pack_B REQUEST_CODE) with (Return [x00]). cbv iota beta.
  match goal with |- context [recv_first_byte ?s0] =>
    destruct (recv_first_byte s0) as [[response|e] s1]; [|done] end.
  destruct (response =? WORKLOAD_AVAILABLE_CODE).
  - destruct (receive_workload s1) as [[w|e] s2] eqn:E; [|done].
    intros [= <- _]. by apply receive_workload_uint32 in E.
  - destruct (response =? WORKLOAD_NOT_AVAILABLE_CODE); done.
Qed.

(** [process_workload] raises only at level 0. *)
Lemma process_workload_returns (level index_real index_imag : Z) :
  level <> 0 -> exists out, process_workload level index_real index_imag = Return out.
Proof.
  intros Hl. unfold process_workload, chunk_window.
  destruct (Z.eqb_spec level 0); [done|]. cbn [rbind].
  unfold gen_arrays.
  match goal with |- context [np_linspace ?a ?b ?d] =>
    destruct (np_linspace_length a b d ltac:(lia)) as (r & -> & _)
  end.
  cbn [rbind].
  match goal with |- context [np_linspace ?a ?b ?d] =>
    destruct (np_linspace_length a b d ltac:(lia)) as (i & -> & _)
  end.
  cbn [rbind]. by eexists.
Qed.


(** C8 (the code at the failing input): the reads of the 4-byte length and
    of the 12-byte address are single [recv(4)] calls.  When the 12 bytes of
    the address (1, 0, 0) arrive whole, [receive_workload] returns it; when
    the very same bytes arrive as 2 + 10, the first [recv(4)] is short and
    [unpack] raises, although [recv_sock_msg_by_len] reads all 12 from that
    stream.  Likewise [get_chunk] reads a length prefix that arrives whole
    and raises [struct.error] when it arrives as 2 + 2 bytes. *)
Theorem short_reads_not_drained :
  let addr := [x01; x00; x00; x00; x00; x00; x00; x00; x00; x00; x00; x00] in
  (receive_workload (Sock.connected [addr])).1 = Return (1, 0, 0)
  /\ (receive_workload (Sock.connected [take 2 addr; drop 2 addr])).1 = Raise StructError
  /\ (exists s', recv_sock_msg_by_len (Sock.connected [take 2 addr; drop 2 addr]) 12
                 = Some (Return addr, s'))
  /\ (exists s', get_chunk 1 0 0 (Sock.connected [[x00]; [x01; x00; x00; x00]; [x07]])
                 = Some (Raise UnknownSerializationType, s'))
  /\ (exists s', get_chunk 1 0 0 (Sock.connected [[x00]; [x01; x00]; [x00; x00]; [x07]])
                 = Some (Raise StructError, s')).
Proof.
  cbn zeta. split; [reflexivity|]. split; [reflexivity|].
  split; [eexists; reflexivity|]. split; eexists; reflexivity.
Qed.

(** On the status [Reject] the viewer's [get_chunk] raises
    ("Request was rejected"): it does not return the no-data result. *)
Lemma get_chunk_reject_raises :
  (exists s', get_chunk 1 0 0 (Sock.connected [[x01]]) = Some (Raise RequestRejected, s'))
  /\ ~ (exists r s', get_chunk 1 0 0 (Sock.connected [[x01]]) = Some (Return r, s')).
Proof.
  split; [eexists; reflexivity|].
  intros (r & s' & H). vm_compute in H. discriminate.
Qed.

(** C9 (amended): on the status [NotAvailable] the viewer's [get_chunk]
    returns the no-data result [(None, False)], and on [Reject] it raises
    "Request was rejected"; in both cases it has read the status byte and
    nothing after it.  The worker's [do_workload_single], once it has a
    workload of a level other than 0, returns [True] without raising when the
    answer to its submission is [WorkloadReject], and it has then sent the
    tag and the address only. *)
Theorem rejection_control_flow
    (level index_real index_imag : Z) (s : Sock.socket)
    (pull pull' push : Sock.socket) (workload : Z * Z * Z)
    (b : byte) (rest rest_push : list (list byte))
    (Haddr : pack_III level index_real index_imag <> Raise StructError)
    (Hstatus : Sock.recv_segments 1 (Sock.incoming s) = ([b], rest))
    (Hpull : receive_workload_session pull = (Return (Some workload), pull'))
    (Hlevel : workload.1.1 <> 0)
    (Hreject : Sock.recv_segments 1 (Sock.incoming push) = ([x21], rest_push)) :
  (Z_of_byte b = REQUEST_NOT_AVAILABLE_CODE ->
     exists s', get_chunk level index_real index_imag s = Some (Return (None, false), s')
       /\ Sock.incoming s' = rest)
  /\ (Z_of_byte b = REQUEST_REJECT_CODE ->
     exists s', get_chunk level index_real index_imag s = Some (Raise RequestRejected, s')
       /\ Sock.incoming s' = rest)
  /\ (exists addr push',
        pack_III workload.1.1 workload.1.2 workload.2 = Return addr
        /\ do_workload_single pull push = (Return true, (pull', push'))
        /\ Sock.incoming push' = rest_push
        /\ Sock.sent push' = Sock.sent push ++ [x01] ++ addr).
Proof.
  assert (Hget : forall status, Z_of_byte b = status ->
    exists s', get_chunk level index_real index_imag s =
      Some (if status =? REQUEST_NOT_AVAILABLE_CODE then Return (None, false)
            else if status =? REQUEST_REJECT_CODE then Raise RequestRejected
            else if negb (status =? REQUEST_ACCEPT_CODE) then Raise (UnknownRequestStatus status)
            else Raise RequestRejected, s') /\ Sock.incoming s' = rest
      \/ status = REQUEST_ACCEPT_CODE).
  { intros status Hb. unfold get_chunk, Sock.bind, Sock.lift, Sock.send, Sock.recv.
    destruct (pack_III level index_real index_imag) as [req|e] eqn:Hreq.
    2:{ exfalso. apply Haddr. unfold pack_III in *.
        by destruct (is_uint32 level && is_uint32 index_real && is_uint32 index_imag). }
    cbn [Sock.incoming]. rewrite Hstatus. cbn [unpack_B]. rewrite Hb.
    destruct (status =? REQUEST_NOT_AVAILABLE_CODE); [eexists; left; by split|].
    destruct (status =? REQUEST_REJECT_CODE); [eexists; left; by split|].
    destruct (Z.eqb_spec status REQUEST_ACCEPT_CODE) as [->|]; cbn [negb].
    - exists s. by right.
    - eexists; left; by split. }
  split; [|split].
  - intros Hb. destruct (Hget _ Hb) as (s' & [[H1 H2] | H]); [|done].
    exists s'. by rewrite H1.
  - intros Hb. destruct (Hget _ Hb) as (s' & [[H1 H2] | H]); [|done].
    exists s'. by rewrite H1.
  - pose proof (receive_workload_session_uint32 _ _ _ Hpull) as Hu.
    destruct (process_workload_returns workload.1.1 workload.1.2 workload.2 Hlevel)
      as [out Hout].
    unfold do_workload_single. rewrite Hpull, Hout.
    unfold return_workload_session, recv_first_byte, Sock.bind, Sock.lift, Sock.send,
      Sock.ret, Sock.raise, Sock.close, Sock.recv, pack_III.
    change (pack_B RESPONSE_CODE) with (Return [x01]). cbv iota beta.
    rewrite Hu. cbn [Sock.incoming Sock.sent Sock.closed]. rewrite Hreject.
    eexists _, _. split; [done|]. cbn. split; [done|]. split; [done|].
    by rewrite <- app_assoc.
Qed.

Lemma rejection_control_flow_witness :
  (exists s', get_chunk 3 1 2 (Sock.connected [[x02; x00]; [x09]])
              = Some (Return (None, false), s')
     /\ Sock.incoming s' = [[x00]; [x09]])
  /\ (exists push',
        do_workload_single
          (Sock.connected [[x10]; [x03; x00; x00; x00; x01; x00; x00; x00; x02; x00; x00; x00]])
          (Sock.connected [[x21; x07]])
        = (Return true, (Sock.mkSocket [] [x00] true, push'))
        /\ Sock.incoming push' = [[x07]]).
Proof.
  pose proof (rejection_control_flow 3 1 2
    (Sock.connected [[x02; x00]; [x09]])
    (Sock.connected [[x10]; [x03; x00; x00; x00; x01; x00; x00; x00; x02; x00; x00; x00]])
    (Sock.mkSocket [] [x00] true)
    (Sock.connected [[x21; x07]])
    (3, 1, 2) x02 [[x00]; [x09]] [[x07]]
    ltac:(discriminate) eq_refl eq_refl ltac:(discriminate) eq_refl) as (H1 & _ & H3).
  split.
  - apply H1. reflexivity.
  - destruct H3 as (addr & push' & _ & H3 & H4 & _). by exists push'.
Defined.

End Sessions.

(** ** The coordinator *)

Section CoordinatorFacts.
Import Coordinator.

Lemma next_pending_is_pending (table : gmap TileAddress Workload) (q q' : list TileAddress)
    (a : TileAddress) :
  next_pending table q = Some (a, q') -> table !! a = Some Pending.
Proof.
  induction q as [|b q IH]; [done|]. cbn.
  destruct (table !! b) as [[| |]|] eqn:E; try done.
  by intros [= <- _].
Qed.

(** An event leaves a completed address completed, with the same cached
    bytes. *)
Lemma step_completed (st : state) (ev : event) (a : TileAddress) :
  workloads st !! a = Some Completed ->
  workloads (step st ev) !! a = Some Completed
  /\ cache (step st ev) !! a = cache st !! a.
Proof.
  intros Hdone. destruct ev as [b|w|w b tileBytes|b]; cbn [step].
  - unfold request_chunk.
    destruct (workloads st !! b) as [[| |]|] eqn:E; cbn; try done.
    split; [|done]. rewrite lookup_insert_ne; [done|]. intros ->. congruence.
  - unfold request_workload.
    destruct (next_pending _ _) as [[b q']|] eqn:E; cbn; [|done].
    apply next_pending_is_pending in E.
    split; [|done]. rewrite lookup_insert_ne; [done|]. intros ->. congruence.
  - unfold submit_result.
    destruct (workloads st !! b) as [[|w'|]|] eqn:E; cbn; try done.
    destruct (decide (w = w')); cbn; [|done].
    assert (b <> a) by (intros ->; congruence).
    by rewrite !lookup_insert_ne.
  - unfold expire_lease.
    destruct (workloads st !! b) as [[|w'|]|] eqn:E; cbn; try done.
    split; [|done]. rewrite lookup_insert_ne; [done|]. intros ->. congruence.
Qed.

Lemma run_completed (evs : list event) :
  forall (st : state) (a : TileAddress),
    workloads st !! a = Some Completed ->
    workloads (run evs st) !! a = Some Completed
    /\ cache (run evs st) !! a = cache st !! a.
Proof.
  induction evs as [|ev evs IH]; intros st a Hdone; [done|].
  cbn [run foldl]. fold (run evs (step st ev)).
  destruct (step_completed st ev a Hdone) as [H1 H2].
  destruct (IH _ _ H1) as [H3 H4]. split; [done|]. by rewrite H4.
Qed.

Lemma submit_result_completed (st : state) (a : TileAddress) (w : WorkerId) (tileBytes : Tile) :
  workloads st !! a = Some Completed -> submit_result w a tileBytes st = (Reject, st).
Proof. intros H. unfold submit_result. by rewrite H. Qed.

(** C7: in every coordinator state in which an address is completed, a
    SubmitResult for that address, from any worker and with any bytes,
    returns [Reject] and leaves the state as it is; and this stays so after
    any further events, the cached bytes of the address being the same
    throughout. *)
Theorem completed_submit_rejected (st : state) (a : TileAddress)
    (Hdone : workloads st !! a = Some Completed) :
  (forall (w : WorkerId) (tileBytes : Tile),
      submit_result w a tileBytes st = (Reject, st))
  /\ (forall (evs : list event) (w : WorkerId) (tileBytes : Tile),
        let st' := run evs st in
        submit_result w a tileBytes st' = (Reject, st')
        /\ workloads st' !! a = Some Completed
        /\ cache st' !! a = cache st !! a).
Proof.
  split.
  - intros w tileBytes. by apply submit_result_completed.
  - intros evs w tileBytes st'.
    destruct (run_completed evs st a Hdone) as [H1 H2].
    split; [by apply submit_result_completed|done].
Qed.

Lemma completed_submit_rejected_witness :
  let a : TileAddress := (2, 1, 0)%Z in
  let st := run [RequestChunk a; RequestWorkload 7; SubmitResult 7 a [x05; xc8]] initial in
  workloads st !! a = Some Completed
  /\ cache st !! a = Some [x05; xc8]
  /\ submit_result 8 a [x00] st = (Reject, st)
  /\ cache (run [SubmitResult 7 a [x01]; ExpireLease a; RequestWorkload 8;
                 SubmitResult 8 a [x02]] st) !! a = Some [x05; xc8].
Proof.
  intros a st.
  assert (Hdone : workloads st !! a = Some Completed) by (vm_compute; reflexivity).
  assert (Hcache : cache st !! a = Some [x05; xc8]) by (vm_compute; reflexivity).
  destruct (completed_submit_rejected st a Hdone) as [H1 H2].
  split; [done|]. split; [done|]. split; [apply H1|].
  destruct (H2 [SubmitResult 7 a [x01]; ExpireLease a; RequestWorkload 8;
                SubmitResult 8 a [x02]] 8%nat [x00]) as (_ & _ & H3).
  exact (eq_trans H3 Hcache).
Defined.

End CoordinatorFacts.
(** * Further properties of the code *)

(** ** The kernel and the tile *)

Section KernelMore.
Local Open Scope Z_scope.
Import Worker EscapeTime Notions.

(** The value the loop returns, for the whole call. *)
Lemma calc_mb_value_cases (r i : float) (mrd : Z) :
  let n := calc_mb_value r i mrd in
  (n = 0 /\ forall k, 1 <= k < mrd -> ~ escapes_at (r, i) k)
  \/ (1 <= n < mrd /\ escapes_at (r, i) n
      /\ forall k, 1 <= k < n -> ~ escapes_at (r, i) k).
Proof.
  intros n. subst n. unfold calc_mb_value.
  pose proof (calc_mb_loop_spec (r, i) (Z.to_nat (mrd - 1)) 0) as H.
  cbn zeta in H. change (orbit (r, i) 0) with (r, i) in H.
  change (Z.of_nat 0 + 1) with 1 in H.
  destruct H as [[H0 Hno] | (Hr & He & Hno)].
  - left. split; [done|]. intros k Hk. apply Hno. lia.
  - right. split; [lia|]. split; [done|]. intros k Hk. apply Hno. lia.
Qed.

(** X1: the cap only truncates: under a smaller cap [mrd] the kernel returns
    what it returns under a larger cap [mrd'] when that index is below
    [mrd], and 0 otherwise.  So raising the cap never changes an escape
    index already found. *)
Theorem calc_mb_value_cap_truncates (r i : float) (mrd mrd' : Z) (Hcap : mrd <= mrd') :
  calc_mb_value r i mrd =
  (if decide (calc_mb_value r i mrd' < mrd) then calc_mb_value r i mrd' else 0)
  /\ (calc_mb_value r i mrd <> 0 -> calc_mb_value r i mrd' = calc_mb_value r i mrd).
Proof.
  pose proof (calc_mb_value_cases r i mrd) as H. cbn zeta in H.
  pose proof (calc_mb_value_cases r i mrd') as H'. cbn zeta in H'.
  set (n := calc_mb_value r i mrd) in *. set (n' := calc_mb_value r i mrd') in *.
  assert (Hn : n = if decide (n' < mrd) then n' else 0).
  { destruct (decide (n' < mrd)) as [Hlt|Hge].
    - destruct H as [[H0 Hno] | (Hr & He & Hno)], H' as [[H0' Hno'] | (Hr' & He' & Hno')].
      + lia.
      + exfalso. apply (Hno n'); [lia|done].
      + exfalso. apply (Hno' n); [lia|done].
      + destruct (Z.lt_trichotomy n n') as [Hc | [Hc | Hc]]; [|done|].
        * exfalso. apply (Hno' n); [lia|done].
        * exfalso. apply (Hno n'); [lia|done].
    - destruct H as [[H0 Hno] | (Hr & He & Hno)]; [done|].
      destruct H' as [[H0' Hno'] | (Hr' & He' & Hno')]; [lia|].
      exfalso. apply (Hno' n); [lia|done]. }
  split; [done|]. intros Hnz. rewrite Hn in Hnz |- *.
  by destruct (decide (n' < mrd)).
Qed.

Lemma calc_mb_value_cap_truncates_witness :
  10 <= 1024
  /\ calc_mb_value (-1.5) 0.25 1024 = 4
  /\ calc_mb_value (-1.5) 0.25 10 = 4
  /\ calc_mb_value (-1.5) 0.25 4 = 0.
Proof.
  split; [lia|].
  assert (H : calc_mb_value (-1.5) 0.25 1024 = 4) by (vm_compute; reflexivity).
  split; [done|].
  destruct (calc_mb_value_cap_truncates (-1.5) 0.25 10 1024 ltac:(lia)) as [H1 _].
  destruct (calc_mb_value_cap_truncates (-1.5) 0.25 4 1024 ltac:(lia)) as [H2 _].
  rewrite H in H1, H2. split; [exact H1 | exact H2].
Defined.

(** Not-a-number absorbs the operations of the loop body. *)
Lemma nan_mul_l (y : float) : (nan * y)%float = nan.
Proof. apply Prim2SF_inj. rewrite mul_spec. by destruct (Prim2SF y). Qed.

Lemma nan_mul_r (x : float) : (x * nan)%float = nan.
Proof. apply Prim2SF_inj. rewrite mul_spec. by destruct (Prim2SF x). Qed.

Lemma nan_add_l (y : float) : (nan + y)%float = nan.
Proof. apply Prim2SF_inj. rewrite add_spec. by destruct (Prim2SF y). Qed.

Lemma nan_add_r (x : float) : (x + nan)%float = nan.
Proof. apply Prim2SF_inj. rewrite add_spec. by destruct (Prim2SF x). Qed.

Lemma nan_sub_l (y : float) : (nan - y)%float = nan.
Proof. apply Prim2SF_inj. rewrite sub_spec. by destruct (Prim2SF y). Qed.

Lemma nan_sub_r (x : float) : (x - nan)%float = nan.
Proof. apply Prim2SF_inj. rewrite sub_spec. by destruct (Prim2SF x). Qed.

Lemma mb_step_nan (c z : float * float) :
  c.1 = nan \/ c.2 = nan -> z = c \/ z = (nan, nan) -> mb_step c z = (nan, nan).
Proof.
  destruct c as [r i], z as [x y]. cbn [fst snd].
  intros Hc Hz. unfold mb_step. cbn [fst snd].
  destruct Hz as [[= -> ->] | [= -> ->]], Hc as [-> | ->];
    rewrite ?nan_mul_l, ?nan_mul_r, ?nan_sub_l, ?nan_sub_r, ?nan_add_l, ?nan_add_r,
            ?nan_mul_l, ?nan_mul_r, ?nan_add_l, ?nan_add_r; done.
Qed.

Lemma calc_mb_loop_nan (c : float * float) (todo : nat) :
  c.1 = nan \/ c.2 = nan ->
  forall i z, z = c \/ z = (nan, nan) -> calc_mb_loop c todo i z = 0.
Proof.
  intros Hc. induction todo as [|todo IH]; intros i z Hz; [done|].
  cbn [calc_mb_loop]. rewrite (mb_step_nan c z Hc Hz).
  change (escaped (nan, nan)) with false. apply IH. by right.
Qed.

(** X2: a point with a not-a-number coordinate never compares as escaped:
    the kernel returns 0 for it under every cap, as for an interior point. *)
Theorem calc_mb_value_nan (r i : float) (mrd : Z) (Hnan : r = nan \/ i = nan) :
  calc_mb_value r i mrd = 0.
Proof. unfold calc_mb_value. apply calc_mb_loop_nan; [done | by left]. Qed.

Lemma calc_mb_value_nan_witness :
  (nan = nan \/ 2%float = nan) /\ calc_mb_value nan 2 1024 = 0.
Proof.
  split; [by left|]. apply calc_mb_value_nan. by left.
Defined.

(** X3: under the cap 1024 the byte of a count is a quarter of it, rounded
    down: the byte is 0 exactly for the counts 0 to 3, so a point that
    escapes within its first three iterations gets the byte of a point that
    never escapes; and the byte never decreases when the count grows. *)
Theorem normalize_quantizes (r i r' i' : float) :
  let n := calc_mb_value r i 1024 in
  let n' := calc_mb_value r' i' 1024 in
  normalize 1024 n = n / 4
  /\ (normalize 1024 n = 0 <-> n <= 3)
  /\ (n <= n' -> normalize 1024 n <= normalize 1024 n').
Proof.
  intros n n'.
  pose proof (calc_mb_value_range r i 1024) as Hn.
  pose proof (calc_mb_value_range r' i' 1024) as Hn'.
  fold n in Hn. fold n' in Hn'.
  assert (Hq : forall c, 0 <= c < 1024 -> normalize 1024 c = c / 4).
  { intros c Hc. destruct (normalize_below_cap c Hc) as [Ht Hb].
    unfold normalize, astype_uint8. rewrite Ht.
    rewrite Z.mod_small by lia.
    transitivity (c * 256 / (4 * 256)); [reflexivity|].
    apply Z.div_mul_cancel_r; lia. }
  rewrite !Hq by lia.
  split; [done|]. split.
  - split; intros H.
    + pose proof (Z.div_mod n 4 ltac:(lia)). pose proof (Z.mod_pos_bound n 4 ltac:(lia)). lia.
    + apply Z.div_small. lia.
  - intros H. apply Z.div_le_mono; lia.
Qed.

End KernelMore.

Section Tile.
Local Open Scope Z_scope.
Import Worker Viewer Notions.

Lemma gen_arrays_returns (start_r start_i _range : float) (W : Z) :
  0 <= W ->
  exists real imag,
    np_linspace start_r (start_r + _range)%float W = Return real
    /\ np_linspace start_i (start_i + _range)%float W = Return imag
    /\ length real = Z.to_nat W /\ length imag = Z.to_nat W
    /\ gen_arrays start_r start_i _range W = Return (np_tile real W, np_repeat imag W).
Proof.
  intros HW.
  destruct (np_linspace_length start_r (start_r + _range)%float W HW) as (real & Hr & Lr).
  destruct (np_linspace_length start_i (start_i + _range)%float W HW) as (imag & Hi & Li).
  exists real, imag. unfold gen_arrays. rewrite Hr, Hi. by cbn [rbind].
Qed.

Lemma normalize_count_byte (x y : float) :
  0 <= normalize 1024 (calc_mb_value x y 1024) <= 255.
Proof.
  pose proof (calc_mb_value_range x y 1024) as Hc.
  destruct (normalize_below_cap (calc_mb_value x y 1024) ltac:(lia)) as [Ht Hb].
  unfold normalize, astype_uint8. rewrite Ht. rewrite Z.mod_small; lia.
Qed.

(** The tile of an address of a level other than 0, entry by entry. *)
Lemma process_workload_grid (level index_real index_imag : Z) (Hlevel : level <> 0) :
  exists (start_r start_i chunk_range : float) (real imag : list float) (out : list Z),
    chunk_window level index_real index_imag = Return (start_r, start_i, chunk_range)
    /\ np_linspace start_r (start_r + chunk_range)%float 4096 = Return real
    /\ np_linspace start_i (start_i + chunk_range)%float 4096 = Return imag
    /\ process_workload level index_real index_imag = Return out
    /\ Z.of_nat (length out) = 4096 * 4096
    /\ Forall (fun b => 0 <= b <= 255) out
    /\ forall (row col : nat) (x y : float),
         real !! col = Some x -> imag !! row = Some y ->
         out !! (row * 4096 + col)%nat = Some (normalize 1024 (calc_mb_value x y 1024)).
Proof.
  unfold process_workload, chunk_window.
  destruct (Z.eqb_spec level 0) as [|_]; [done|]. cbn [rbind].
  match goal with |- context [gen_arrays ?a ?b ?c 4096] =>
    destruct (gen_arrays_returns a b c 4096 ltac:(lia)) as (real & imag & Hr & Hi & Lr & Li & Hg);
    exists a, b, c, real, imag
  end.
  rewrite Hg. cbn [rbind]. eexists. split; [done|]. split; [done|]. split; [done|].
  split; [done|].
  unfold calc_mb_value_vec, np_tile, np_repeat.
  split; [|split].
  - rewrite length_map, length_zip_with, length_np_tile, length_np_repeat, Lr, Li. lia.
  - apply Forall_forall. intros b Hb.
    apply list_elem_of_fmap in Hb as (n & -> & Hn).
    apply list_elem_of_lookup in Hn as (k & Hk).
    apply lookup_zip_with_Some in Hk as (x & y & -> & _ & _).
    apply normalize_count_byte.
  - intros row col x y Hx Hy.
    pose proof (lookup_lt_Some _ _ _ Hx) as Hcol.
    pose proof (lookup_lt_Some _ _ _ Hy) as Hrow.
    rewrite list_lookup_fmap, lookup_zip_with.
    replace (row * 4096 + col)%nat with (row * length real + col)%nat at 1 by lia.
    rewrite lookup_np_tile by lia. rewrite Hx. cbn [mbind option_bind].
    replace (Z.to_nat 4096) with 4096%nat by lia.
    rewrite lookup_np_repeat by lia. rewrite Hy. done.
Qed.

(** X4: for every address of a level other than 0, [process_workload] returns
    a tile of exactly 4096 * 4096 values, each in 0..255, whose value at the
    flat index [row * 4096 + col] is the normalised escape count of the
    point [real[col] + i * imag[row]] of the window of the address. *)
Theorem process_workload_tile (level index_real index_imag : Z) (Hlevel : level <> 0) :
  exists (start_r start_i chunk_range : float) (real imag : list float) (out : list Z),
    chunk_window level index_real index_imag = Return (start_r, start_i, chunk_range)
    /\ np_linspace start_r (start_r + chunk_range)%float 4096 = Return real
    /\ np_linspace start_i (start_i + chunk_range)%float 4096 = Return imag
    /\ process_workload level index_real index_imag = Return out
    /\ Z.of_nat (length out) = 4096 * 4096
    /\ Forall (fun b => 0 <= b <= 255) out
    /\ forall (row col : nat) (x y : float),
         real !! col = Some x -> imag !! row = Some y ->
         out !! (row * 4096 + col)%nat = Some (normalize 1024 (calc_mb_value x y 1024)).
Proof. exact (process_workload_grid level index_real index_imag Hlevel). Qed.

Lemma process_workload_tile_witness :
  1 <> 0 /\ exists out, process_workload 1 0 0 = Return out
                      /\ Z.of_nat (length out) = 4096 * 4096.
Proof.
  split; [lia|].
  destruct (process_workload_tile 1 0 0 ltac:(lia))
    as (_ & _ & _ & _ & _ & out & _ & _ & _ & Hout & Hlen & _).
  by exists out.
Defined.

(** The bytes of a [uint8] array hold its values. *)
Lemma tobytes_values (out : list Z) :
  Forall (fun b => 0 <= b <= 255) out -> map Z_of_byte (tobytes out) = out.
Proof.
  induction 1 as [|b out Hb _ IH]; [done|].
  unfold tobytes in *. cbn [map]. rewrite IH, Z_of_byte_of_Z, Z.mod_small by lia. done.
Qed.

Lemma decode_chunk_raw (body : list byte) :
  Z.of_nat (length body) = CHUNK_WIDTH * CHUNK_WIDTH ->
  decode_chunk (x00 :: body) = Some (Return (map Z_of_byte body)).
Proof.
  intros Hl. unfold decode_chunk, chunk_data_to_value_array.
  change (Z_of_byte x00 =? 0) with true. cbv iota.
  by destruct (Z.eqb_spec (Z.of_nat (length body)) (CHUNK_WIDTH * CHUNK_WIDTH)).
Qed.

(** X5: what the worker computes comes back from the viewer's decoder: the
    bytes [out.tobytes()] that the worker submits for a tile, served behind
    the tag 0 (Raw), decode to the very values of [out]. *)
Theorem raw_tile_round_trip (level index_real index_imag : Z) (Hlevel : level <> 0) :
  exists out : list Z,
    process_workload level index_real index_imag = Return out
    /\ Z.of_nat (length (tobytes out)) = 4096 * 4096
    /\ decode_chunk (x00 :: tobytes out) = Some (Return out).
Proof.
  destruct (process_workload_grid level index_real index_imag Hlevel)
    as (_ & _ & _ & _ & _ & out & _ & _ & _ & Hout & Hlen & Hbytes & _).
  exists out. split; [done|].
  assert (Hl : Z.of_nat (length (tobytes out)) = 4096 * 4096).
  { unfold tobytes. by rewrite length_map. }
  split; [done|].
  rewrite decode_chunk_raw by done. by rewrite tobytes_values.
Qed.

Lemma raw_tile_round_trip_witness :
  3 <> 0 /\ exists out, process_workload 3 1 2 = Return out
                      /\ decode_chunk (x00 :: tobytes out) = Some (Return out).
Proof.
  split; [lia|].
  destruct (raw_tile_round_trip 3 1 2 ltac:(lia)) as (out & H1 & _ & H2).
  by exists out.
Defined.

End Tile.

(** ** Reading and decoding, continued *)

Section ReadingMore.
Local Open Scope Z_scope.
Import Worker Viewer Notions.

Lemma recv_loop_keeps (todo : nat) (n : Z) :
  forall out s r s', recv_loop todo n out s = Some (r, s') ->
    Sock.sent s' = Sock.sent s /\ Sock.closed s' = Sock.closed s.
Proof.
  induction todo as [|todo IH]; intros out s r s'; cbn [recv_loop];
    destruct (Z.of_nat (length out) <? n); try done; try by intros [= _ <-].
  unfold Sock.recv. destruct (Sock.recv_segments _ (Sock.incoming s)) as [[|b x] segs'].
  - by intros [= _ <-].
  - intros H. by apply IH in H.
Qed.

Lemma recv_sock_msg_by_len_take (s : Sock.socket) (n : Z) :
  exists r s', recv_sock_msg_by_len s n = Some (r, s')
    /\ Sock.sent s' = Sock.sent s /\ Sock.closed s' = Sock.closed s
    /\ (n <= Z.of_nat (length (Sock.pending s)) ->
        r = Return (take (Z.to_nat n) (Sock.pending s))
        /\ Sock.pending s' = drop (Z.to_nat n) (Sock.pending s))
    /\ (Z.of_nat (length (Sock.pending s)) < n -> r = Raise EOFReached).
Proof.
  destruct (recv_sock_msg_by_len_spec s n) as (r & s' & Hr & Hspec).
  exists r, s'. split; [done|].
  destruct (recv_loop_keeps _ _ _ _ _ _ Hr) as [Hs Hc].
  split; [done|]. split; [done|].
  destruct r as [msg|e].
  - destruct Hspec as [Hcat Hlen]. split.
    + intros _.
      assert (Hm : length msg = Z.to_nat n) by lia.
      rewrite <- Hcat, <- Hm. by rewrite take_app_length, drop_app_length.
    + intros Hlt. apply (f_equal length) in Hcat. rewrite length_app in Hcat. lia.
  - destruct Hspec as [-> Hlt]. split; [lia|done].
Qed.

(** X6: however the stream is cut into segments, [recv_sock_msg_by_len(s, n)]
    returns exactly its next [n] bytes and leaves the rest to be read, when
    [n] bytes or more are still to come, and raises the end-of-file
    exception when fewer are; it sends nothing and does not close. *)
Theorem recv_sock_msg_by_len_exact (s : Sock.socket) (n : Z) :
  exists r s', recv_sock_msg_by_len s n = Some (r, s')
    /\ Sock.sent s' = Sock.sent s /\ Sock.closed s' = Sock.closed s
    /\ (n <= Z.of_nat (length (Sock.pending s)) ->
        r = Return (take (Z.to_nat n) (Sock.pending s))
        /\ Sock.pending s' = drop (Z.to_nat n) (Sock.pending s))
    /\ (Z.of_nat (length (Sock.pending s)) < n -> r = Raise EOFReached).
Proof. exact (recv_sock_msg_by_len_take s n). Qed.

Lemma rle_runs_app (n : nat) :
  forall a b : list byte, (length a <= n)%nat -> (length a `mod` 5)%nat = O ->
    rle_runs (a ++ b) = rle_runs a ++ rle_runs b.
Proof.
  induction n as [|n IH]; intros a b Hn Hm.
  - by destruct a; [|cbn in Hn; lia].
  - destruct a as [|b0 [|b1 [|b2 [|b3 [|v a]]]]]; try done.
    cbn [app rle_runs]. rewrite (IH a b); [done|cbn in Hn; lia|].
    cbn [length] in Hm.
    replace (S (S (S (S (S (length a)))))) with (length a + 1 * 5)%nat in Hm by lia.
    by rewrite Nat.Div0.mod_add in Hm.
Qed.

Lemma rle_runs_counts (n : nat) :
  forall data : list byte, (length data <= n)%nat ->
    Forall (fun run => 0 <= run.1 < 4294967296) (rle_runs data)
    /\ length (rle_runs data) = (length data / 5)%nat.
Proof.
  induction n as [|n IH]; intros data Hn.
  - by destruct data; [|cbn in Hn; lia].
  - destruct data as [|b0 [|b1 [|b2 [|b3 [|v data]]]]]; try done.
    cbn [rle_runs]. destruct (IH data) as [IH1 IH2]; [cbn in Hn; lia|].
    split.
    + constructor; [|done]. cbn [fst].
      pose proof (uint_of_bytes_range [b0; b1; b2; b3]) as H. cbn [length] in H.
      change (256 ^ Z.of_nat 4) with 4294967296 in H. done.
    + cbn [length]. rewrite IH2.
      replace (S (S (S (S (S (length data)))))) with (1 * 5 + length data)%nat by lia.
      rewrite Nat.div_add_l by lia. lia.
Qed.

Lemma length_rle_expand (runs : list (Z * byte)) :
  Forall (fun run => 0 <= run.1 < 4294967296) runs ->
  Z.of_nat (length (rle_expand runs)) = rle_total runs.
Proof.
  induction 1 as [|[count val] runs Hc _ IH]; [done|].
  unfold rle_expand in *. rewrite bind_cons, length_app, length_replicate.
  cbn [rle_total foldr fst snd] in *. fold (rle_total runs). lia.
Qed.

(** X7: [deserialize_rle] raises [struct.error] exactly on a body whose
    length is not a multiple of 5, whatever whole runs come before the
    partial one; on any other body it returns the expansion of its
    [len / 5] runs, whose length is the sum of their counts. *)
Theorem deserialize_rle_outcome (data : list byte) :
  ((length data `mod` 5)%nat <> O -> deserialize_rle data = Some (Raise StructError))
  /\ ((length data `mod` 5)%nat = O ->
      deserialize_rle data = Some (Return (rle_expand (rle_runs data)))
      /\ length (rle_runs data) = (length data / 5)%nat
      /\ Z.of_nat (length (rle_expand (rle_runs data))) = rle_total (rle_runs data)).
Proof.
  rewrite deserialize_rle_spec.
  destruct (rle_runs_counts (length data) data ltac:(lia)) as [Hc Hl].
  split; intros Hm; destruct (decide _); try done.
  split; [done|]. split; [done|]. by apply length_rle_expand.
Qed.

(** X8: decoding distributes over concatenation at a run boundary: after a
    prefix [a] of whole runs, the body [a ++ b] decodes to the expansion of
    [a] followed by what [b] decodes to, and raises when [b] does. *)
Theorem deserialize_rle_app (a b : list byte) (Ha : (length a `mod` 5)%nat = O) :
  deserialize_rle (a ++ b) =
  match deserialize_rle b with
  | Some (Return y) => Some (Return (rle_expand (rle_runs a) ++ y))
  | other => other
  end.
Proof.
  rewrite !deserialize_rle_spec, length_app.
  rewrite <- Nat.Div0.add_mod_idemp_l, Ha, Nat.add_0_l.
  destruct (decide _); [|done].
  rewrite (rle_runs_app (length a)) by (done || lia).
  unfold rle_expand. by rewrite bind_app.
Qed.

Lemma deserialize_rle_app_witness :
  (length (pack_IB 2 x07) `mod` 5)%nat = O
  /\ deserialize_rle (pack_IB 2 x07 ++ pack_IB 1 x09) = Some (Return [x07; x07; x09])
  /\ deserialize_rle (pack_IB 2 x07 ++ [x01; x00]) = Some (Raise StructError).
Proof.
  split; [reflexivity|]. split.
  - rewrite (deserialize_rle_app (pack_IB 2 x07) (pack_IB 1 x09)); reflexivity.
  - rewrite (deserialize_rle_app (pack_IB 2 x07) [x01; x00]); reflexivity.
Defined.

(** X9: the address layouts agree: the 12 bytes that [pack("III", ...)]
    writes for an address of [uint32] fields (the viewer's request, the
    worker's submission) are read back by [receive_workload] as the same
    address, when they arrive in one segment; bytes after them stay unread. *)
Theorem receive_workload_reads_pack_III (a b c : Z) (more : list byte)
    (rest : list (list byte)) (sent : list byte) (closed : bool)
    (Hrange : uint32_address a b c = true) :
  exists bytes,
    pack_III a b c = Return bytes /\ length bytes = 12%nat
    /\ receive_workload (Sock.mkSocket ((bytes ++ more) :: rest) sent closed) =
       (Return (a, b, c),
        Sock.mkSocket (match more with [] => rest | _ => more :: rest end) sent closed).
Proof.
  unfold uint32_address in Hrange. unfold pack_III. rewrite Hrange.
  apply andb_prop in Hrange as [Hab Hc]. apply andb_prop in Hab as [Ha Hb].
  assert (Hu : forall v, is_uint32 v = true -> 0 <= v < 4294967296).
  { intros v Hv. unfold is_uint32 in Hv. apply andb_prop in Hv as [H1 H2].
    apply Z.leb_le in H1. apply Z.ltb_lt in H2. lia. }
  eexists. split; [done|]. split; [done|].
  unfold receive_workload, Sock.bind, Sock.lift, Sock.ret, Sock.recv, bytes_of_uint32.
  unfold unpack_I.
  do 3 (cbn [app length Sock.incoming Sock.sent Sock.closed Sock.recv_segments take drop];
        change (Z.of_nat 4 =? 4) with true; cbv iota).
  rewrite take_0, drop_0. cbn [length]. change (Z.of_nat 4 =? 4) with true. cbv iota.
  pose proof (uint_of_bytes_uint32 a (Hu a Ha)) as Ea.
  pose proof (uint_of_bytes_uint32 b (Hu b Hb)) as Eb.
  pose proof (uint_of_bytes_uint32 c (Hu c Hc)) as Ec.
  unfold bytes_of_uint32 in Ea, Eb, Ec. rewrite Ea, Eb, Ec.
  by destruct more.
Qed.

Lemma receive_workload_reads_pack_III_witness :
  uint32_address 4 3 4294967295 = true
  /\ exists bytes, pack_III 4 3 4294967295 = Return bytes
       /\ receive_workload (Sock.connected [bytes ++ [x2a]]) =
          (Return (4, 3, 4294967295), Sock.connected [[x2a]]).
Proof.
  split; [reflexivity|].
  destruct (receive_workload_reads_pack_III 4 3 4294967295 [x2a] [] [] false eq_refl)
    as (bytes & H1 & _ & H2).
  by exists bytes.
Defined.

End ReadingMore.

(** ** The worker's session, case by case *)

Section WorkerSession.
Local Open Scope Z_scope.
Import Worker Viewer Notions.

(** The first connection, by the byte the server answers with. *)
Lemma receive_workload_session_status (pull : Sock.socket) (x : list byte)
    (rest : list (list byte)) :
  Sock.recv_segments 1 (Sock.incoming pull) = (x, rest) ->
  let s1 := Sock.mkSocket rest (Sock.sent pull ++ [x00]) (Sock.closed pull) in
  receive_workload_session pull =
  match x with
  | [] => (Raise IndexError, s1)
  | b :: _ =>
      if Z_of_byte b =? WORKLOAD_AVAILABLE_CODE then
        match receive_workload s1 with
        | (Return workload, s2) =>
            (Return (Some workload),
             Sock.mkSocket (Sock.incoming s2) (Sock.sent s2) true)
        | (Raise e, s2) => (Raise e, s2)
        end
      else if Z_of_byte b =? WORKLOAD_NOT_AVAILABLE_CODE then (Return None, s1)
      else (Raise (UnknownResponseCode (Z_of_byte b)), s1)
  end.
Proof.
  intros Hx s1.
  unfold receive_workload_session, recv_first_byte, Sock.bind, Sock.lift, Sock.send,
    Sock.ret, Sock.raise, Sock.close, Sock.recv.
  change (pack_B REQUEST_CODE) with (Return [x00]). cbv iota beta.
  cbn [Sock.incoming Sock.sent Sock.closed]. rewrite Hx.
  destruct x as [|b x]; [done|].
  destruct (Z_of_byte b =? WORKLOAD_AVAILABLE_CODE).
  - fold s1. by destruct (receive_workload s1) as [[w|e] s2].
  - by destruct (Z_of_byte b =? WORKLOAD_NOT_AVAILABLE_CODE).
Qed.

(** The second connection, by the byte the server answers with. *)
Lemma return_workload_session_status (workload : Z * Z * Z) (out : list Z)
    (push : Sock.socket) (x : list byte) (rest : list (list byte)) :
  uint32_address workload.1.1 workload.1.2 workload.2 = true ->
  Sock.recv_segments 1 (Sock.incoming push) = (x, rest) ->
  let addr := bytes_of_uint32 workload.1.1 ++ bytes_of_uint32 workload.1.2
              ++ bytes_of_uint32 workload.2 in
  let s1 := Sock.mkSocket rest (Sock.sent push ++ [x01] ++ addr) (Sock.closed push) in
  return_workload_session workload out push =
  match x with
  | [] => (Raise IndexError, s1)
  | b :: _ =>
      if Z_of_byte b =? WORKLOAD_ACCEPT_CODE then
        (Return true,
         Sock.mkSocket rest (Sock.sent push ++ [x01] ++ addr ++ tobytes out) true)
      else if Z_of_byte b =? WORKLOAD_REJECT_CODE then (Return true, s1)
      else (Raise (UnknownResponseCode (Z_of_byte b)), s1)
  end.
Proof.
  intros Hu Hx addr s1. unfold uint32_address in Hu.
  unfold return_workload_session, recv_first_byte, Sock.bind, Sock.lift, Sock.send,
    Sock.ret, Sock.raise, Sock.close, Sock.recv, pack_III.
  change (pack_B RESPONSE_CODE) with (Return [x01]). cbv iota beta.
  rewrite Hu. cbn [Sock.incoming Sock.sent Sock.closed]. rewrite Hx.
  subst s1 addr. rewrite <- !app_assoc.
  destruct x as [|b x]; [done|].
  destruct (Z_of_byte b =? WORKLOAD_ACCEPT_CODE).
  - cbn [Sock.incoming Sock.sent Sock.closed]. by rewrite <- !app_assoc.
  - by destruct (Z_of_byte b =? WORKLOAD_REJECT_CODE).
Qed.

(** X10: when the server answers the request with [WorkloadNotAvailable],
    [do_workload_single] returns [False]: it has sent the request byte and
    nothing else, left that socket open, and not touched a second
    connection. *)
Theorem do_workload_single_not_available (pull push : Sock.socket)
    (rest : list (list byte))
    (Hstatus : Sock.recv_segments 1 (Sock.incoming pull) = ([x11], rest)) :
  do_workload_single pull push =
  (Return false, (Sock.mkSocket rest (Sock.sent pull ++ [x00]) (Sock.closed pull), push)).
Proof.
  unfold do_workload_single.
  by rewrite (receive_workload_session_status pull _ _ Hstatus).
Qed.

Lemma do_workload_single_not_available_witness :
  do_workload_single (Sock.connected [[x11; x07]]) (Sock.connected [[x20]]) =
  (Return false, (Sock.mkSocket [[x07]] [x00] false, Sock.connected [[x20]])).
Proof.
  apply (do_workload_single_not_available (Sock.connected [[x11; x07]])
           (Sock.connected [[x20]]) [[x07]]).
  reflexivity.
Defined.

(** X11: an answer to the request that is neither [WorkloadAvailable] nor
    [WorkloadNotAvailable] makes [do_workload_single] raise with that code,
    and a server that closes without answering makes it raise an
    [IndexError]; in both cases nothing is computed and the second
    connection is not touched. *)
Theorem do_workload_single_bad_answer (pull push : Sock.socket) (x : list byte)
    (rest : list (list byte))
    (Hanswer : Sock.recv_segments 1 (Sock.incoming pull) = (x, rest))
    (Hcode : forall b x', x = b :: x' ->
               Z_of_byte b <> WORKLOAD_AVAILABLE_CODE
               /\ Z_of_byte b <> WORKLOAD_NOT_AVAILABLE_CODE) :
  do_workload_single pull push =
  (Raise match x with
         | [] => IndexError
         | b :: _ => UnknownResponseCode (Z_of_byte b)
         end,
   (Sock.mkSocket rest (Sock.sent pull ++ [x00]) (Sock.closed pull), push)).
Proof.
  unfold do_workload_single.
  rewrite (receive_workload_session_status pull _ _ Hanswer).
  destruct x as [|b x]; [done|].
  destruct (Hcode b x eq_refl) as [H1 H2].
  apply Z.eqb_neq in H1, H2. by rewrite H1, H2.
Qed.

Lemma do_workload_single_bad_answer_witness :
  do_workload_single (Sock.connected [[x20]]) (Sock.connected []) =
    (Raise (UnknownResponseCode 32), (Sock.mkSocket [] [x00] false, Sock.connected []))
  /\ do_workload_single (Sock.connected []) (Sock.connected []) =
    (Raise IndexError, (Sock.mkSocket [] [x00] false, Sock.connected [])).
Proof.
  split.
  - apply (do_workload_single_bad_answer (Sock.connected [[x20]]) (Sock.connected [])
             [x20] [] eq_refl).
    intros b x' [= <- <-]. split; discriminate.
  - apply (do_workload_single_bad_answer (Sock.connected []) (Sock.connected [])
             [] [] eq_refl).
    intros b x' H. discriminate.
Defined.

(** X12: a workload of level 0 makes [do_workload_single] raise
    [ZeroDivisionError] in [process_workload]: the first connection is
    closed by then, and nothing is sent back on a second one. *)
Theorem do_workload_single_level_zero (pull pull' push : Sock.socket)
    (index_real index_imag : Z)
    (Hpull : receive_workload_session pull = (Return (Some (0, index_real, index_imag)), pull')) :
  do_workload_single pull push = (Raise ZeroDivisionError, (pull', push))
  /\ Sock.closed pull' = true.
Proof.
  unfold do_workload_single. rewrite Hpull. split; [done|].
  destruct (Sock.recv_segments 1 (Sock.incoming pull)) as [x rest] eqn:Hx.
  rewrite (receive_workload_session_status pull _ _ Hx) in Hpull.
  destruct x as [|b x]; [done|].
  destruct (Z_of_byte b =? WORKLOAD_AVAILABLE_CODE).
  - destruct (receive_workload _) as [[w|e] s2]; [|done]. by injection Hpull as _ <-.
  - by destruct (Z_of_byte b =? WORKLOAD_NOT_AVAILABLE_CODE).
Qed.

Lemma do_workload_single_level_zero_witness :
  do_workload_single
    (Sock.connected [[x10]; [x00; x00; x00; x00]; [x05; x00; x00; x00]; [x06; x00; x00; x00]])
    (Sock.connected [[x20]])
  = (Raise ZeroDivisionError, (Sock.mkSocket [] [x00] true, Sock.connected [[x20]])).
Proof.
  apply (do_workload_single_level_zero
           (Sock.connected [[x10]; [x00; x00; x00; x00]; [x05; x00; x00; x00];
                            [x06; x00; x00; x00]])
           (Sock.mkSocket [] [x00] true) (Sock.connected [[x20]]) 5 6).
  reflexivity.
Defined.

(** X13: once it has a workload of a level other than 0,
    [do_workload_single] sends the tag 1 and the 12 bytes of the address,
    and then, by the byte the server answers with: on [WorkloadAccept] the
    4096 * 4096 bytes of the tile, closes and returns [True]; on any other
    byte no tile byte at all: it returns [True] on [WorkloadReject], raises
    with the code otherwise, and raises an [IndexError] when the server
    closes without answering. *)
Theorem do_workload_single_submission (pull pull' push : Sock.socket)
    (workload : Z * Z * Z) (x : list byte) (rest : list (list byte))
    (Hpull : receive_workload_session pull = (Return (Some workload), pull'))
    (Hlevel : workload.1.1 <> 0)
    (Hanswer : Sock.recv_segments 1 (Sock.incoming push) = (x, rest)) :
  exists (addr : list byte) (out : list Z),
    pack_III workload.1.1 workload.1.2 workload.2 = Return addr
    /\ length addr = 12%nat
    /\ process_workload workload.1.1 workload.1.2 workload.2 = Return out
    /\ Z.of_nat (length (tobytes out)) = 4096 * 4096
    /\ do_workload_single pull push =
       match x with
       | [] =>
           (Raise IndexError,
            (pull', Sock.mkSocket rest (Sock.sent push ++ [x01] ++ addr) (Sock.closed push)))
       | b :: _ =>
           if Z_of_byte b =? WORKLOAD_ACCEPT_CODE then
             (Return true,
              (pull', Sock.mkSocket rest (Sock.sent push ++ [x01] ++ addr ++ tobytes out) true))
           else
             (if Z_of_byte b =? WORKLOAD_REJECT_CODE then Return true
              else Raise (UnknownResponseCode (Z_of_byte b)),
              (pull', Sock.mkSocket rest (Sock.sent push ++ [x01] ++ addr) (Sock.closed push)))
       end.
Proof.
  pose proof (receive_workload_session_uint32 _ _ _ Hpull) as Hu.
  destruct (process_workload_grid workload.1.1 workload.1.2 workload.2 Hlevel)
    as (_ & _ & _ & _ & _ & out & _ & _ & _ & Hout & Hlen & _).
  exists (bytes_of_uint32 workload.1.1 ++ bytes_of_uint32 workload.1.2
          ++ bytes_of_uint32 workload.2), out.
  split; [unfold pack_III; by rewrite Hu|]. split; [done|]. split; [done|].
  split; [unfold tobytes; by rewrite length_map|].
  unfold do_workload_single. rewrite Hpull, Hout.
  rewrite (return_workload_session_status workload out push x rest Hu Hanswer).
  destruct x as [|b x]; [done|].
  destruct (Z_of_byte b =? WORKLOAD_ACCEPT_CODE); [done|].
  by destruct (Z_of_byte b =? WORKLOAD_REJECT_CODE).
Qed.

Lemma do_workload_single_submission_witness :
  exists (addr : list byte) (out : list Z),
    process_workload 3 1 2 = Return out
    /\ do_workload_single
         (Sock.connected [[x10]; [x03; x00; x00; x00; x01; x00; x00; x00; x02; x00; x00; x00]])
         (Sock.connected [[x20]])
       = (Return true,
          (Sock.mkSocket [] [x00] true,
           Sock.mkSocket [] ([x01] ++ addr ++ tobytes out) true)).
Proof.
  destruct (do_workload_single_submission
    (Sock.connected [[x10]; [x03; x00; x00; x00; x01; x00; x00; x00; x02; x00; x00; x00]])
    (Sock.mkSocket [] [x00] true) (Sock.connected [[x20]])
    (3, 1, 2) [x20] [] eq_refl ltac:(discriminate) eq_refl)
    as (addr & out & _ & _ & Hout & _ & H).
  exists addr, out. split; [exact Hout | exact H].
Defined.

End WorkerSession.

(** ** The viewer's request, case by case *)

Section ViewerSession.
Local Open Scope Z_scope.
Import Worker Viewer Notions.

(** [get_chunk] up to the status byte. *)
Lemma get_chunk_status (level index_real index_imag : Z) (s : Sock.socket)
    (x : list byte) (rest : list (list byte)) :
  uint32_address level index_real index_imag = true ->
  Sock.recv_segments 1 (Sock.incoming s) = (x, rest) ->
  let req := bytes_of_uint32 level ++ bytes_of_uint32 index_real ++ bytes_of_uint32 index_imag in
  let s1 := Sock.mkSocket rest (Sock.sent s ++ req) (Sock.closed s) in
  get_chunk level index_real index_imag s =
  match unpack_B x with
  | Raise e => Some (Raise e, s1)
  | Return status =>
      if status =? REQUEST_NOT_AVAILABLE_CODE then Some (Return (None, false), s1)
      else if status =? REQUEST_REJECT_CODE then Some (Raise RequestRejected, s1)
      else if negb (status =? REQUEST_ACCEPT_CODE)
      then Some (Raise (UnknownRequestStatus status), s1)
      else
        match Sock.bind (Sock.recv 4) (fun x => Sock.lift (unpack_I x)) s1 with
        | (Raise e, s2) => Some (Raise e, s2)
        | (Return resp_len, s2) =>
            match recv_sock_msg_by_len s2 resp_len with
            | None => None
            | Some (Raise e, s3) => Some (Raise e, s3)
            | Some (Return raw_data, s3) =>
                match decode_chunk raw_data with
                | None => None
                | Some (Raise e) => Some (Raise e, s3)
                | Some (Return vs) =>
                    Some (Return (Some vs, true),
                          Sock.mkSocket (Sock.incoming s3) (Sock.sent s3) true)
                end
            end
        end
  end.
Proof.
  intros Hu Hx req s1. unfold uint32_address in Hu.
  unfold get_chunk. unfold Sock.bind at 1 2. unfold Sock.lift at 1 2, Sock.send, Sock.recv at 1, pack_III.
  rewrite Hu. cbn [Sock.incoming Sock.sent Sock.closed]. rewrite Hx. fold req. fold s1.
  destruct (unpack_B x) as [status|e]; [|done].
  destruct (status =? REQUEST_NOT_AVAILABLE_CODE); [done|].
  destruct (status =? REQUEST_REJECT_CODE); [done|].
  destruct (negb (status =? REQUEST_ACCEPT_CODE)); [done|].
  destruct (Sock.bind (Sock.recv 4) _ s1) as [[resp_len|e] s2]; [|done].
  destruct (recv_sock_msg_by_len s2 resp_len) as [[[raw|e] s3]|]; [|done|done].
  by destruct (decode_chunk raw) as [[vs|e]|].
Qed.

Lemma get_chunk_bad_address_aux (level index_real index_imag : Z) (s : Sock.socket) :
  uint32_address level index_real index_imag = false ->
  get_chunk level index_real index_imag s = Some (Raise StructError, s).
Proof.
  intros Hrange. unfold uint32_address in Hrange.
  unfold get_chunk, Sock.bind, Sock.lift, pack_III. by rewrite Hrange.
Qed.

(** X14: an address with a field outside [uint32] (a negative index, say)
    makes [get_chunk] raise [struct.error] before anything is sent. *)
Theorem get_chunk_bad_address (level index_real index_imag : Z) (s : Sock.socket)
    (Hrange : uint32_address level index_real index_imag = false) :
  get_chunk level index_real index_imag s = Some (Raise StructError, s).
Proof. exact (get_chunk_bad_address_aux level index_real index_imag s Hrange). Qed.

Lemma get_chunk_bad_address_witness :
  uint32_address 2 (-1) 0 = false
  /\ get_chunk 2 (-1) 0 (Sock.connected [[x00]]) = Some (Raise StructError, Sock.connected [[x00]]).
Proof.
  split; [reflexivity|]. by apply get_chunk_bad_address.
Defined.

(** X15: a status byte other than 0, 1 and 2 makes [get_chunk] raise with
    that code, and a server that closes without a status makes it raise
    [struct.error]; the request has been sent, nothing further is read, and
    the socket is not closed. *)
Theorem get_chunk_bad_status (level index_real index_imag : Z) (s : Sock.socket)
    (x : list byte) (rest : list (list byte))
    (Hrange : uint32_address level index_real index_imag = true)
    (Hstatus : Sock.recv_segments 1 (Sock.incoming s) = (x, rest))
    (Hcode : forall b x', x = b :: x' -> ~ (0 <= Z_of_byte b <= 2)) :
  exists req,
    pack_III level index_real index_imag = Return req
    /\ get_chunk level index_real index_imag s =
       Some (Raise match x with
                   | [] => StructError
                   | b :: _ => UnknownRequestStatus (Z_of_byte b)
                   end,
             Sock.mkSocket rest (Sock.sent s ++ req) (Sock.closed s)).
Proof.
  eexists. split; [unfold pack_III; unfold uint32_address in Hrange; by rewrite Hrange|].
  rewrite (get_chunk_status _ _ _ s x rest Hrange Hstatus). cbv zeta.
  destruct (recv_segments_spec 1 _ _ _ Hstatus) as (_ & Hlen & _).
  destruct x as [|b [|b' x]]; [done| |cbn in Hlen; lia].
  specialize (Hcode b [] eq_refl). cbn [unpack_B].
  unfold REQUEST_NOT_AVAILABLE_CODE, REQUEST_REJECT_CODE, REQUEST_ACCEPT_CODE.
  destruct (Z.eqb_spec (Z_of_byte b) 2); [lia|].
  destruct (Z.eqb_spec (Z_of_byte b) 1); [lia|].
  destruct (Z.eqb_spec (Z_of_byte b) 0); [lia|]. done.
Qed.

Lemma get_chunk_bad_status_witness :
  get_chunk 1 0 0 (Sock.connected [[x10; x07]]) =
    Some (Raise (UnknownRequestStatus 16),
          Sock.mkSocket [[x07]] [x01; x00; x00; x00; x00; x00; x00; x00; x00; x00; x00; x00] false)
  /\ get_chunk 1 0 0 (Sock.connected []) =
    Some (Raise StructError,
          Sock.mkSocket [] [x01; x00; x00; x00; x00; x00; x00; x00; x00; x00; x00; x00] false).
Proof.
  split.
  - destruct (get_chunk_bad_status 1 0 0 (Sock.connected [[x10; x07]]) [x10] [[x07]]
                eq_refl eq_refl) as (req & Hreq & H).
    { intros b x' [= <- <-]. vm_compute. intros [_ H]. by apply H. }
    injection Hreq as <-. exact H.
  - destruct (get_chunk_bad_status 1 0 0 (Sock.connected []) [] [] eq_refl eq_refl)
      as (req & Hreq & H).
    { intros b x' H. discriminate. }
    injection Hreq as <-. exact H.
Defined.

(** [get_chunk] after the status [Accept] and a length prefix that arrives
    whole: the payload is the next [resp_len] bytes of the stream. *)
Lemma get_chunk_accepted (level index_real index_imag : Z) (s : Sock.socket)
    (rest1 rest2 : list (list byte)) (len_bytes : list byte) :
  uint32_address level index_real index_imag = true ->
  Sock.recv_segments 1 (Sock.incoming s) = ([x00], rest1) ->
  Sock.recv_segments 4 rest1 = (len_bytes, rest2) ->
  length len_bytes = 4%nat ->
  let resp_len := uint_of_bytes len_bytes in
  let req := bytes_of_uint32 level ++ bytes_of_uint32 index_real ++ bytes_of_uint32 index_imag in
  exists s3,
    Sock.sent s3 = Sock.sent s ++ req /\ Sock.closed s3 = Sock.closed s
    /\ ((Z.of_nat (length (mjoin rest2)) < resp_len ->
         get_chunk level index_real index_imag s = Some (Raise EOFReached, s3))
        /\ (resp_len <= Z.of_nat (length (mjoin rest2)) ->
            Sock.pending s3 = drop (Z.to_nat resp_len) (mjoin rest2)
            /\ get_chunk level index_real index_imag s =
               match decode_chunk (take (Z.to_nat resp_len) (mjoin rest2)) with
               | Some (Return vs) =>
                   Some (Return (Some vs, true),
                         Sock.mkSocket (Sock.incoming s3) (Sock.sent s3) true)
               | Some (Raise e) => Some (Raise e, s3)
               | None => None
               end)).
Proof.
  intros Hu H1 H4 Hl resp_len req.
  rewrite (get_chunk_status _ _ _ s _ rest1 Hu H1). cbv zeta.
  change (unpack_B [x00]) with (Return 0).
  change (0 =? REQUEST_NOT_AVAILABLE_CODE) with false.
  change (0 =? REQUEST_REJECT_CODE) with false.
  change (negb (0 =? REQUEST_ACCEPT_CODE)) with false. cbv iota.
  unfold Sock.bind, Sock.lift, Sock.recv. cbn [Sock.incoming Sock.sent Sock.closed].
  rewrite H4. unfold unpack_I. rewrite Hl. change (Z.of_nat 4 =? 4) with true. cbv iota.
  fold resp_len. fold req.
  set (s2 := Sock.mkSocket rest2 (Sock.sent s ++ req) (Sock.closed s)).
  destruct (recv_sock_msg_by_len_take s2 resp_len) as (r & s3 & Hr & Hs & Hc & Hok & Heof).
  exists s3. rewrite Hr. split; [done|]. split; [done|].
  change (Sock.pending s2) with (mjoin rest2) in Hok, Heof.
  split.
  - intros Hlt. by rewrite (Heof Hlt).
  - intros Hle. destruct (Hok Hle) as [-> Hp]. split; [done|].
    by destruct (decode_chunk _) as [[vs|e]|].
Qed.

(** X16: when fewer bytes arrive than the length prefix announces,
    [get_chunk] raises the end-of-file exception: no tile is returned, and
    the socket is not closed. *)
Theorem get_chunk_truncated (level index_real index_imag : Z) (s : Sock.socket)
    (rest1 rest2 : list (list byte)) (len_bytes : list byte)
    (Hrange : uint32_address level index_real index_imag = true)
    (Hstatus : Sock.recv_segments 1 (Sock.incoming s) = ([x00], rest1))
    (Hprefix : Sock.recv_segments 4 rest1 = (len_bytes, rest2))
    (Hwhole : length len_bytes = 4%nat)
    (Hshort : Z.of_nat (length (mjoin rest2)) < uint_of_bytes len_bytes) :
  exists s', get_chunk level index_real index_imag s = Some (Raise EOFReached, s')
    /\ Sock.closed s' = Sock.closed s.
Proof.
  destruct (get_chunk_accepted _ _ _ s rest1 rest2 len_bytes Hrange Hstatus Hprefix Hwhole)
    as (s3 & _ & Hc & Heof & _).
  exists s3. split; [by apply Heof | done].
Qed.

Lemma get_chunk_truncated_witness :
  exists s', get_chunk 1 0 0 (Sock.connected [[x00]; [x06; x00; x00; x00]; [x01; x02]; [x03]])
             = Some (Raise EOFReached, s')
    /\ Sock.closed s' = false.
Proof.
  apply (get_chunk_truncated 1 0 0
           (Sock.connected [[x00]; [x06; x00; x00; x00]; [x01; x02]; [x03]])
           [[x06; x00; x00; x00]; [x01; x02]; [x03]] [[x01; x02]; [x03]]
           [x06; x00; x00; x00] eq_refl eq_refl eq_refl eq_refl).
  vm_compute. reflexivity.
Defined.

(** X17: the result of [get_chunk] does not depend on how the payload is cut
    into segments: after the status [Accept] and a length prefix that
    arrives whole, it is what decoding the next [resp_len] bytes of the
    stream gives; the bytes after them stay unread, and the socket is closed
    exactly when a tile is returned. *)
Theorem get_chunk_decodes_payload (level index_real index_imag : Z) (s : Sock.socket)
    (rest1 rest2 : list (list byte)) (len_bytes : list byte)
    (Hrange : uint32_address level index_real index_imag = true)
    (Hstatus : Sock.recv_segments 1 (Sock.incoming s) = ([x00], rest1))
    (Hprefix : Sock.recv_segments 4 rest1 = (len_bytes, rest2))
    (Hwhole : length len_bytes = 4%nat)
    (Hall : uint_of_bytes len_bytes <= Z.of_nat (length (mjoin rest2))) :
  let raw := take (Z.to_nat (uint_of_bytes len_bytes)) (mjoin rest2) in
  exists r s',
    decode_chunk raw = Some r
    /\ get_chunk level index_real index_imag s =
       Some (match r with
             | Return vs => Return (Some vs, true)
             | Raise e => Raise e
             end, s')
    /\ Sock.pending s' = drop (Z.to_nat (uint_of_bytes len_bytes)) (mjoin rest2)
    /\ Sock.closed s' = (Sock.closed s || negb (is_raise r)).
Proof.
  intros raw.
  destruct (get_chunk_accepted _ _ _ s rest1 rest2 len_bytes Hrange Hstatus Hprefix Hwhole)
    as (s3 & _ & Hc & _ & Hok).
  destruct (Hok Hall) as [Hp Hg]. fold raw in Hg.
  destruct (decode_chunk_total raw) as [r Hr]. rewrite Hr in Hg.
  exists r. destruct r as [vs|e].
  - eexists. split; [done|]. split; [exact Hg|]. split; [done|].
    cbn. by rewrite orb_true_r.
  - exists s3. split; [done|]. split; [done|]. split; [done|].
    cbn. by rewrite orb_false_r.
Qed.

Lemma get_chunk_decodes_payload_witness :
  exists s',
    get_chunk 1 0 0 (Sock.connected [[x00]; [x03; x00; x00; x00; x09]; [x01]; [x02; x03]])
      = Some (Raise UnknownSerializationType, s')
    /\ Sock.pending s' = [x03].
Proof.
  destruct (get_chunk_decodes_payload 1 0 0
              (Sock.connected [[x00]; [x03; x00; x00; x00; x09]; [x01]; [x02; x03]])
              [[x03; x00; x00; x00; x09]; [x01]; [x02; x03]]
              [[x09]; [x01]; [x02; x03]] [x03; x00; x00; x00]
              eq_refl eq_refl eq_refl eq_refl ltac:(vm_compute; discriminate))
    as (r & s' & Hr & Hg & Hp & _).
  exists s'. vm_compute in Hr. injection Hr as <-. split; [exact Hg | exact Hp].
Defined.

End ViewerSession.

(** ** Tiles through the viewer *)

Section ViewerTiles.
Local Open Scope Z_scope.
Import Worker Viewer Notions.

Lemma decode_chunk_rle (runs : list (Z * byte)) :
  Forall (fun run => 0 <= run.1 < 4294967296) runs ->
  rle_total runs = CHUNK_WIDTH * CHUNK_WIDTH ->
  decode_chunk (x01 :: rle_body runs) = Some (Return (map Z_of_byte (rle_expand runs))).
Proof.
  intros Hruns Htotal. unfold decode_chunk.
  rewrite chunk_data_to_value_array_spec.
  change (Z_of_byte x01 =? 0) with false. change (Z_of_byte x01 =? 1) with true. cbv iota.
  destruct (rle_runs_body runs Hruns) as [Hr Hl].
  rewrite Hr, Hl, Nat.Div0.mod_mul. destruct (decide _); [|done].
  rewrite (length_rle_expand runs Hruns), Htotal.
  by rewrite Z.eqb_refl.
Qed.

(** X18: a Raw payload is handed over as it is: when the server answers
    [Accept], a length prefix of 4096 * 4096 + 1 that arrives whole, the
    tag 0 and 4096 * 4096 bytes, in segments of any sizes, [get_chunk]
    returns the values of those bytes in order, with [True], closes the
    socket and leaves what follows unread. *)
Theorem get_chunk_raw_tile (level index_real index_imag : Z) (s : Sock.socket)
    (rest1 rest2 : list (list byte)) (body extra : list byte)
    (Hrange : uint32_address level index_real index_imag = true)
    (Hstatus : Sock.recv_segments 1 (Sock.incoming s) = ([x00], rest1))
    (Hprefix : Sock.recv_segments 4 rest1 = ([x01; x00; x00; x01], rest2))
    (Hpayload : mjoin rest2 = x00 :: body ++ extra)
    (Hbody : Z.of_nat (length body) = 4096 * 4096) :
  exists s',
    get_chunk level index_real index_imag s = Some (Return (Some (map Z_of_byte body), true), s')
    /\ Sock.closed s' = true /\ Sock.pending s' = extra.
Proof.
  destruct (get_chunk_accepted _ _ _ s rest1 rest2 _ Hrange Hstatus Hprefix eq_refl)
    as (s3 & _ & _ & _ & Hok).
  change (uint_of_bytes [x01; x00; x00; x01]) with 16777217 in Hok.
  assert (Hn : Z.to_nat 16777217 = length (x00 :: body)) by (cbn [length]; lia).
  rewrite Hpayload, Hn in Hok.
  change (x00 :: body ++ extra) with ((x00 :: body) ++ extra) in Hok.
  rewrite take_app_length, drop_app_length in Hok.
  destruct Hok as [Hp Hg].
  { rewrite length_app. cbn [length]. lia. }
  rewrite decode_chunk_raw in Hg by done.
  eexists. split; [exact Hg|]. split; [done|]. exact Hp.
Qed.



Lemma get_chunk_raw_tile_witness :
  let body := replicate (Z.to_nat 16777216) x2a in
  exists s',
    get_chunk 2 1 0 (Sock.connected [[x00]; [x01; x00; x00; x01]; [x00]; body; [x07]])
    = Some (Return (Some (map Z_of_byte body), true), s')
    /\ Sock.closed s' = true /\ Sock.pending s' = [x07].
Proof.
  intros body.
  assert (H1 : uint32_address 2 1 0 = true) by reflexivity.
  assert (H2 : Sock.recv_segments 1
            (Sock.incoming (Sock.connected [[x00]; [x01; x00; x00; x01]; [x00]; body; [x07]]))
          = ([x00], [[x01; x00; x00; x01]; [x00]; body; [x07]])) by reflexivity.
  assert (H3 : Sock.recv_segments 4 [[x01; x00; x00; x01]; [x00]; body; [x07]]
          = ([x01; x00; x00; x01], [[x00]; body; [x07]])) by reflexivity.
  assert (H4 : mjoin [[x00]; body; [x07]] = x00 :: body ++ [x07]).
  { change (mjoin [[x00]; body; [x07]]) with ([x00] ++ body ++ [x07] ++ []).
    by rewrite app_nil_r. }
  assert (H5 : Z.of_nat (length body) = 4096 * 4096).
  { subst body. rewrite length_replicate, Z2Nat.id by lia. reflexivity. }
  exact (get_chunk_raw_tile 2 1 0 _ _ _ body [x07] H1 H2 H3 H4 H5).
Defined.

(** X19: an RLE payload is expanded: when the server answers [Accept], a
    length prefix of [1 + 5 * len(runs)] that arrives whole, the tag 1 and
    the body of runs whose counts add up to 4096 * 4096, in segments of any
    sizes, [get_chunk] returns the values of the expanded runs, with
    [True], and closes the socket. *)
Theorem get_chunk_rle_tile (level index_real index_imag : Z) (s : Sock.socket)
    (rest1 rest2 : list (list byte)) (len_bytes extra : list byte)
    (runs : list (Z * byte))
    (Hrange : uint32_address level index_real index_imag = true)
    (Hstatus : Sock.recv_segments 1 (Sock.incoming s) = ([x00], rest1))
    (Hprefix : Sock.recv_segments 4 rest1 = (len_bytes, rest2))
    (Hwhole : length len_bytes = 4%nat)
    (Hlen : uint_of_bytes len_bytes = 1 + 5 * Z.of_nat (length runs))
    (Hpayload : mjoin rest2 = x01 :: rle_body runs ++ extra)
    (Hruns : Forall (fun run => 0 <= run.1 < 4294967296) runs)
    (Htotal : rle_total runs = 4096 * 4096) :
  exists s',
    get_chunk level index_real index_imag s =
      Some (Return (Some (map Z_of_byte (rle_expand runs)), true), s')
    /\ Z.of_nat (length (rle_expand runs)) = 4096 * 4096
    /\ Sock.closed s' = true /\ Sock.pending s' = extra.
Proof.
  destruct (get_chunk_accepted _ _ _ s rest1 rest2 _ Hrange Hstatus Hprefix Hwhole)
    as (s3 & _ & _ & _ & Hok).
  destruct (rle_runs_body runs Hruns) as [_ Hl].
  assert (Hn : Z.to_nat (uint_of_bytes len_bytes) = length (x01 :: rle_body runs))
    by (cbn [length]; lia).
  rewrite Hpayload, Hn in Hok.
  change (x01 :: rle_body runs ++ extra) with ((x01 :: rle_body runs) ++ extra) in Hok.
  rewrite take_app_length, drop_app_length in Hok.
  destruct Hok as [Hp Hg].
  { rewrite length_app. cbn [length]. lia. }
  rewrite decode_chunk_rle in Hg by done.
  eexists. split; [exact Hg|]. split; [by rewrite length_rle_expand|].
  split; [done|]. exact Hp.
Qed.



Lemma get_chunk_rle_tile_witness :
  let runs := [(16777000, x00); (0, x09); (216, xc8)] in
  exists s',
    get_chunk 2 1 0
      (Sock.connected [[x00; x10; x00; x00; x00]; x01 :: take 7 (rle_body runs);
                       drop 7 (rle_body runs)])
    = Some (Return (Some (map Z_of_byte (rle_expand runs)), true), s')
    /\ Sock.closed s' = true.
Proof.
  intros runs.
  assert (H1 : uint32_address 2 1 0 = true) by reflexivity.
  assert (H2 : Sock.recv_segments 1 (Sock.incoming (Sock.connected [[x00; x10; x00; x00; x00]; x01 :: take 7 (rle_body runs);
                       drop 7 (rle_body runs)])) = ([x00],  [[x10; x00; x00; x00]; x01 :: take 7 (rle_body runs); drop 7 (rle_body runs)])) by reflexivity.
  assert (H3 : Sock.recv_segments 4 [[x10; x00; x00; x00]; x01 :: take 7 (rle_body runs); drop 7 (rle_body runs)] = ([x10; x00; x00; x00], [x01 :: take 7 (rle_body runs); drop 7 (rle_body runs)])) by reflexivity.
  assert (H5 : uint_of_bytes [x10; x00; x00; x00] = 1 + 5 * Z.of_nat (length runs)) by reflexivity.
  assert (H6 : mjoin [x01 :: take 7 (rle_body runs); drop 7 (rle_body runs)] = x01 :: rle_body runs ++ []) by reflexivity.
  assert (H7 : Forall (fun run => 0 <= run.1 < 4294967296) runs) by (repeat constructor; cbn; lia).
  assert (H8 : rle_total runs = 4096 * 4096) by reflexivity.
  pose proof (get_chunk_rle_tile 2 1 0 _ _ _ _ _ runs H1 H2 H3 eq_refl H5 H6 H7 H8) as (s' & H & _ & Hc & _).
  exists s'. split. exact H. exact Hc.
Defined.



End ViewerTiles.

(** ** From the tile to the image *)

Section Image.
Local Open Scope Z_scope.
Import Worker Viewer Notions.

Variable jet : float -> rgba.

Lemma zip_with_fmap_same {A B C} (f : A -> B -> C) (h : A -> B) (l : list A) :
  zip_with f l (map h l) = map (fun v => f v (h v)) l.
Proof. induction l as [|v l IH]; [done|]. cbn. by rewrite IH. Qed.

Lemma lookup_np_reshape2 {A} (rows cols : Z) (a : list A) (row : nat) :
  (row < Z.to_nat rows)%nat ->
  np_reshape2 rows cols a !! row
  = Some (take (Z.to_nat cols) (drop (row * Z.to_nat cols) a)).
Proof.
  intros Hr. unfold np_reshape2.
  rewrite list_lookup_fmap, lookup_seq_lt by done. done.
Qed.

(** The colour of one value of the tile. *)
Lemma data_to_img_array_rows (data : list Z) :
  Z.of_nat (length data) = CHUNK_WIDTH * CHUNK_WIDTH ->
  data_to_img_array jet data =
  Passed (map (map (fun d =>
            let v := (1 - float_of_Z d / 256)%float in
            if PrimFloat.eqb v 1 then (0, 0, 0, 1)%float else jet v))
          (np_reshape2 CHUNK_WIDTH CHUNK_WIDTH data)).
Proof.
  intros Hl. unfold data_to_img_array.
  rewrite Hl, Z.eqb_refl. cbn [negb]. cbv zeta. f_equal.
  set (vs := map (map (fun v => (1 - v)%float)) _).
  rewrite (zip_with_fmap_same _ (map jet) vs).
  subst vs. rewrite <- !list_fmap_compose.
  apply list_fmap_ext. intros _ line _. cbn.
  rewrite zip_with_fmap_same. rewrite <- !list_fmap_compose. done.
Qed.


(** The value 1, which is drawn black, comes from the byte 0 alone. *)
Lemma black_only_zero_table :
  forallb (fun d => Bool.eqb (PrimFloat.eqb (1 - float_of_Z d / 256) 1) (d =? 0))
          (map Z.of_nat (seq 0 256)) = true.
Proof. vm_compute. reflexivity. Qed.

Lemma black_only_zero (d : Z) :
  0 <= d <= 255 -> PrimFloat.eqb (1 - float_of_Z d / 256) 1 = (d =? 0).
Proof.
  intros Hd.
  pose proof (proj1 (forallb_forall _ _) black_only_zero_table d) as H.
  apply eqb_prop, H. apply in_map_iff. exists (Z.to_nat d). split; [lia|].
  apply in_seq. lia.
Qed.

(** X21: for a tile of 4096 * 4096 bytes, [data_to_img_array] returns an image
    of 4096 rows of 4096 pixels in which the pixel [(row, col)] is that of
    the byte at the flat index [row * 4096 + col]: opaque black exactly
    when the byte is 0, and otherwise the colour [jet] gives to
    [1 - byte / 256]. *)
Theorem data_to_img_array_pixels (data : list Z)
    (Hlen : Z.of_nat (length data) = 4096 * 4096)
    (Hbytes : Forall (fun d => 0 <= d <= 255) data) :
  exists img,
    data_to_img_array jet data = Passed img
    /\ length img = 4096%nat
    /\ forall (row col : nat) (d : Z),
         (col < 4096)%nat -> data !! (row * 4096 + col)%nat = Some d ->
         exists line,
           img !! row = Some line /\ length line = 4096%nat
           /\ line !! col = Some (if d =? 0 then (0, 0, 0, 1)%float
                                  else jet (1 - float_of_Z d / 256)%float).
Proof.
  eexists. split; [by apply data_to_img_array_rows|].
  split.
  { unfold np_reshape2. rewrite !length_map, length_seq. reflexivity. }
  intros row col d Hcol Hd.
  pose proof (lookup_lt_Some _ _ _ Hd) as Hidx.
  assert (Hrow : (row < 4096)%nat) by lia.
  rewrite list_lookup_fmap, lookup_np_reshape2 by (change (Z.to_nat CHUNK_WIDTH) with 4096%nat; lia).
  change (Z.to_nat CHUNK_WIDTH) with 4096%nat. cbn [fmap option_fmap option_map].
  eexists. split; [done|]. split.
  - rewrite length_map, length_take, length_drop. lia.
  - rewrite list_lookup_fmap, lookup_take.
    rewrite lookup_drop, Hd. case_decide; [|lia].
    cbn [fmap option_fmap option_map]. f_equal.
    rewrite black_only_zero; [done|].
    rewrite Forall_forall in Hbytes. apply Hbytes.
    by apply list_elem_of_lookup_2 in Hd.
Qed.

End Image.

Section ViewerMain.
Local Open Scope Z_scope.
Import Worker Viewer Notions.

Lemma data_to_img_array_pixels_witness :
  let jet := fun v : float => (v, v, v, 1%float) in
  let data := replicate (Z.to_nat 16777216) 200 in
  Z.of_nat (length data) = 4096 * 4096
  /\ exists img line,
       data_to_img_array jet data = Passed img
       /\ img !! 17%nat = Some line
       /\ line !! 42%nat = Some (0.21875, 0.21875, 0.21875, 1)%float.
Proof.
  intros jet data.
  assert (Hlen : Z.of_nat (length data) = 4096 * 4096).
  { subst data. rewrite length_replicate, Z2Nat.id by lia. reflexivity. }
  assert (Hbytes : Forall (fun d => 0 <= d <= 255) data).
  { subst data. apply Forall_replicate. lia. }
  split; [exact Hlen|].
  destruct (data_to_img_array_pixels jet data Hlen Hbytes) as (img & Himg & _ & Hpix).
  assert (Hd : data !! (17 * 4096 + 42)%nat = Some 200).
  { subst data. apply lookup_replicate_2. lia. }
  destruct (Hpix 17%nat 42%nat 200 ltac:(lia) Hd) as (line & Hrow & _ & Hcol).
  exists img, line. split; [exact Himg|]. split; [exact Hrow|]. exact Hcol.
Defined.




End ViewerMain.

